(** * EVAllocator: the instrumented raw allocator of
      tensorflow/core/framework/ev_allocator.cc

    A shallow embedding of the allocator, of its two cached warning
    thresholds and of the factory with its sub-allocator adapter, followed by
    the properties of the statistics and of the warning policy.

    The embedding is sequential: [mu_] and the atomic counter are not
    modelled, every method runs to completion before the next one starts. *)

From Stdlib Require Import ZArith List Bool Lia.
From Stdlib Require Floats.SpecFloat.
From stdpp Require Import base decidable list.

Local Open Scope Z_scope.

(** ** Machine integers *)

(** [int64] and [size_t] values are integers of [Z]; the wrap-around of the
    64-bit arithmetic is written out where the code computes. *)

Definition int64_min : Z := - 2 ^ 63.
Definition int64_max : Z := 2 ^ 63 - 1.

(** Conversion to [size_t] / [uint64]: reduction modulo 2^64. *)
Definition to_uint64 (z : Z) : Z := z mod 2 ^ 64.

(** Conversion to [int64]: the two's complement representative. *)
Definition to_int64 (z : Z) : Z := (z + 2 ^ 63) mod 2 ^ 64 - 2 ^ 63.

(** ** Binary64 arithmetic *)

(** [double] is IEEE 754 binary64, computed with the reference
    implementation of the standard library ([prec = 53], [emax = 1024]). *)

Module Double.

Import SpecFloat.

Definition double : Type := spec_float.

Definition prec : Z := 53.
Definition emax : Z := 1024.

(** Integer to double conversion, rounding to nearest even. *)
Definition of_int64 (z : Z) : double := binary_normalize prec emax z 0 false.

Definition mul (x y : double) : double := SFmul prec emax x y.

Definition div (x y : double) : double := SFdiv prec emax x y.

(** [static_cast<int64>(d)]: truncation toward zero.  The cast is undefined
    for NaN, for the infinities and for values outside [int64]; the model
    returns what the x86-64 conversion instruction does there,
    [INT64_MIN]. *)
Definition to_int64 (d : double) : Z :=
  match d with
  | S754_zero _ => 0
  | S754_finite s m e =>
      let a := match e with
               | Zneg k => Z.pos m / 2 ^ Z.pos k
               | _ => Z.pos m * 2 ^ e
               end in
      let r := if s then - a else a in
      if (int64_min <=? r) && (r <=? int64_max) then r else int64_min
  | _ => int64_min
  end.

(** The literals [0.5] and [0.1] of the source, as binary64 values. *)
Definition lit_0_5 : double := S754_finite false 4503599627370496 (-53).
Definition lit_0_1 : double := S754_finite false 7205759403792794 (-56).

End Double.

(** ** The platform layer *)

(** [port::AvailableRam], [port::AlignedMalloc], [port::AlignedFree] and
    [port::MallocExtension_GetAllocatedSize] are declared in
    tensorflow/core/platform/mem.h and defined by the platform; the allocator
    is parameterised by them.  [sys] is the state of the operating system and
    of the C heap, on which they act. *)

(** A [void*] is its address. *)
Abbreviation ptr := Z (only parsing).
Definition nullptr : ptr := 0.

Record Port : Type := {
  sys : Type;
  (* int64 AvailableRam() *)
  AvailableRam : sys -> Z;
  (* void* AlignedMalloc(size_t size, int minimum_alignment) *)
  AlignedMalloc : Z -> Z -> sys -> ptr * sys;
  (* void AlignedFree(void* aligned_memory) *)
  AlignedFree : ptr -> sys -> sys;
  (* std::size_t MallocExtension_GetAllocatedSize(const void* p) *)
  MallocExtension_GetAllocatedSize : ptr -> sys -> Z
}.

Arguments AvailableRam {_} _.
Arguments AlignedMalloc {_} _ _ _.
Arguments AlignedFree {_} _ _.
Arguments MallocExtension_GetAllocatedSize {_} _ _.

(** The contract of a heap: [allocated s p] says that [p] is a block handed
    out and not yet taken back.  An allocation returns null or a block that
    was not allocated, a block keeps its size while it is allocated, null has
    size 0 and freeing null does nothing. *)
Class PortSpec (P : Port) : Type := {
  allocated : sys P -> ptr -> Prop;
  GetAllocatedSize_range : forall p s,
    0 <= @MallocExtension_GetAllocatedSize P p s < 2 ^ 64;
  GetAllocatedSize_null : forall s,
    @MallocExtension_GetAllocatedSize P nullptr s = 0;
  AlignedMalloc_fresh : forall n a s p s',
    AlignedMalloc n a s = (p, s') -> p <> nullptr -> ~ allocated s p;
  AlignedMalloc_new : forall n a s p s',
    AlignedMalloc n a s = (p, s') -> p <> nullptr -> allocated s' p;
  AlignedMalloc_keeps : forall n a s p s' q,
    AlignedMalloc n a s = (p, s') -> allocated s q -> allocated s' q;
  AlignedMalloc_size : forall n a s p s' q,
    AlignedMalloc n a s = (p, s') -> allocated s q ->
    MallocExtension_GetAllocatedSize q s' = MallocExtension_GetAllocatedSize q s;
  AlignedFree_null : forall s, @AlignedFree P nullptr s = s;
  AlignedFree_keeps : forall p s q,
    allocated s q -> q <> p -> allocated (AlignedFree p s) q;
  AlignedFree_size : forall p s q,
    allocated s q -> q <> p ->
    MallocExtension_GetAllocatedSize q (AlignedFree p s)
    = MallocExtension_GetAllocatedSize q s
}.

(** ** The process state *)

(** The two warnings of the source; the text of the message is left out,
    the number it prints is kept. *)
Inductive warning : Type :=
| SingleAllocationWarning (num_bytes : Z)
| TotalAllocationWarning (bytes_in_use : Z).

(** The two threshold accessors, used to tell who called
    [port::AvailableRam]. *)
Inductive accessor : Type :=
| Large
| Total.

Global Instance accessor_eq_dec : EqDecision accessor.
Proof. solve_decision. Defined.

Global Instance warning_eq_dec : EqDecision warning.
Proof. solve_decision. Defined.

Section Allocator.

Context {P : Port}.

(** What the translation unit shares between all allocators: the platform
    state, the flag [ev_allocator_collect_stats], the function-local statics
    [value] of the two accessors ([None] before the first call), the calls
    made to [port::AvailableRam] and the log. *)
Record world : Type := {
  os : sys P;
  ev_allocator_collect_stats : bool;
  large_value : option Z;
  total_value : option Z;
  ram_queries : list accessor;
  log : list warning
}.

Definition set_os (s : sys P) (w : world) : world :=
  {| os := s;
     ev_allocator_collect_stats := ev_allocator_collect_stats w;
     large_value := large_value w;
     total_value := total_value w;
     ram_queries := ram_queries w;
     log := log w |}.

(** [LOG(WARNING) << ...] *)
Definition LOG (m : warning) (w : world) : world :=
  {| os := os w;
     ev_allocator_collect_stats := ev_allocator_collect_stats w;
     large_value := large_value w;
     total_value := total_value w;
     ram_queries := ram_queries w;
     log := log w ++ [m] |}.

(** The state of a process that has not yet run any code of this file on
    the platform state [s]: the flag is initialised to [false]. *)
Definition world_start (s : sys P) : world :=
  {| os := s;
     ev_allocator_collect_stats := false;
     large_value := None;
     total_value := None;
     ram_queries := [];
     log := [] |}.

(** ** The cached thresholds *)

Definition kMaxTotalAllocationWarnings : Z := 1.
Definition kMaxSingleAllocationWarnings : Z := 5.
Definition kTotalAllocationWarningThreshold : Double.double := Double.lit_0_5.
Definition kLargeAllocationWarningThreshold : Double.double := Double.lit_0_1.

(** [static_cast<int64>(port::AvailableRam() * k)] *)
Definition scaled_ram (k : Double.double) (ram : Z) : Z :=
  Double.to_int64 (Double.mul (Double.of_int64 ram) k).

(** The initialiser of a function-local static runs on the first call
    only. *)
Definition LargeAllocationWarningBytes (w : world) : Z * world :=
  match large_value w with
  | Some value => (value, w)
  | None =>
      let value := scaled_ram kLargeAllocationWarningThreshold (AvailableRam (os w)) in
      (value,
       {| os := os w;
          ev_allocator_collect_stats := ev_allocator_collect_stats w;
          large_value := Some value;
          total_value := total_value w;
          ram_queries := ram_queries w ++ [Large];
          log := log w |})
  end.

Definition TotalAllocationWarningBytes (w : world) : Z * world :=
  match total_value w with
  | Some value => (value, w)
  | None =>
      let value := scaled_ram kTotalAllocationWarningThreshold (AvailableRam (os w)) in
      (value,
       {| os := os w;
          ev_allocator_collect_stats := ev_allocator_collect_stats w;
          large_value := large_value w;
          total_value := Some value;
          ram_queries := ram_queries w ++ [Total];
          log := log w |})
  end.

(** ** The allocator *)

(** Modelled from the spec: [AllocatorStats] is declared in
    tensorflow/core/framework/allocator.h.  These are the four fields that
    this file reads and writes, counts and byte numbers held as [int64]
    ([std::max<int64>] in the source), all zero in a new record. *)
Record AllocatorStats : Type := {
  num_allocs : Z;
  bytes_in_use : Z;
  peak_bytes_in_use : Z;
  largest_alloc_size : Z
}.

Definition AllocatorStats_new : AllocatorStats :=
  {| num_allocs := 0; bytes_in_use := 0;
     peak_bytes_in_use := 0; largest_alloc_size := 0 |}.

(** The two counters are [int]s (the first one atomic); each is incremented
    only below its cap, so the increments never wrap. *)
Record EVAllocator : Type := {
  stats_ : AllocatorStats;
  single_allocation_warning_count_ : Z;
  total_allocation_warning_count_ : Z
}.

(** The constructor. *)
Definition EVAllocator_new : EVAllocator :=
  {| stats_ := AllocatorStats_new;
     single_allocation_warning_count_ := 0;
     total_allocation_warning_count_ := 0 |}.

(** [size_t > int64_t] compares as unsigned: the [int64] operand is
    converted to [size_t]. *)
Definition exceeds_large (num_bytes large : Z) : bool :=
  to_uint64 large <? num_bytes.

Definition AllocateRaw (alignment num_bytes : Z) (this : EVAllocator) (w : world)
  : ptr * EVAllocator * world :=
  let '(large, w) := LargeAllocationWarningBytes w in
  let '(this, w) :=
    if exceeds_large num_bytes large
       && (single_allocation_warning_count_ this <? kMaxSingleAllocationWarnings)
    then ({| stats_ := stats_ this;
             single_allocation_warning_count_ :=
               single_allocation_warning_count_ this + 1;
             total_allocation_warning_count_ :=
               total_allocation_warning_count_ this |},
          LOG (SingleAllocationWarning num_bytes) w)
    else (this, w) in
  let alignment := 8 in
  let '(p, s) := AlignedMalloc num_bytes alignment (os w) in
  let w := set_os s w in
  if ev_allocator_collect_stats w then
    let alloc_size := MallocExtension_GetAllocatedSize p (os w) in
    let st := stats_ this in
    let num_allocs' := to_int64 (num_allocs st + 1) in
    let bytes_in_use' := to_int64 (bytes_in_use st + alloc_size) in
    let peak_bytes_in_use' := Z.max (peak_bytes_in_use st) bytes_in_use' in
    let largest_alloc_size' :=
      Z.max (largest_alloc_size st) (to_int64 alloc_size) in
    let st := {| num_allocs := num_allocs';
                 bytes_in_use := bytes_in_use';
                 peak_bytes_in_use := peak_bytes_in_use';
                 largest_alloc_size := largest_alloc_size' |} in
    let '(total, w) := TotalAllocationWarningBytes w in
    if (total <? bytes_in_use st)
       && (total_allocation_warning_count_ this <? kMaxTotalAllocationWarnings)
    then (p,
          {| stats_ := st;
             single_allocation_warning_count_ :=
               single_allocation_warning_count_ this;
             total_allocation_warning_count_ :=
               total_allocation_warning_count_ this + 1 |},
          LOG (TotalAllocationWarning (bytes_in_use st)) w)
    else (p,
          {| stats_ := st;
             single_allocation_warning_count_ :=
               single_allocation_warning_count_ this;
             total_allocation_warning_count_ :=
               total_allocation_warning_count_ this |},
          w)
  else (p, this, w).

Definition DeallocateRaw (p : ptr) (this : EVAllocator) (w : world)
  : EVAllocator * world :=
  let this :=
    if ev_allocator_collect_stats w then
      let alloc_size := MallocExtension_GetAllocatedSize p (os w) in
      let st := stats_ this in
      {| stats_ := {| num_allocs := num_allocs st;
                      bytes_in_use := to_int64 (bytes_in_use st - alloc_size);
                      peak_bytes_in_use := peak_bytes_in_use st;
                      largest_alloc_size := largest_alloc_size st |};
         single_allocation_warning_count_ :=
           single_allocation_warning_count_ this;
         total_allocation_warning_count_ :=
           total_allocation_warning_count_ this |}
    else this in
  (this, set_os (AlignedFree p (os w)) w).

(** [absl::optional<AllocatorStats> GetStats()] *)
Definition GetStats (this : EVAllocator) : option AllocatorStats :=
  Some (stats_ this).

Definition ClearStats (this : EVAllocator) : EVAllocator :=
  let st := stats_ this in
  {| stats_ := {| num_allocs := 0;
                  bytes_in_use := bytes_in_use st;
                  peak_bytes_in_use := bytes_in_use st;
                  largest_alloc_size := 0 |};
     single_allocation_warning_count_ := single_allocation_warning_count_ this;
     total_allocation_warning_count_ := total_allocation_warning_count_ this |}.

Definition AllocatedSizeSlow (p : ptr) (w : world) : Z :=
  MallocExtension_GetAllocatedSize p (os w).

End Allocator.

Arguments world : clear implicits.

(** ** The factory and the sub-allocator *)

(** [new EVAllocator] puts an allocator in the free store; an
    [EVAllocator*] is the index of its object there.  Nothing in this file
    deletes an allocator. *)

Record EVSubAllocator : Type := {
  ev_allocator_ : nat
}.

Section Factory.

Context {P : Port}.

Definition new_EVAllocator (objs : list EVAllocator) : nat * list EVAllocator :=
  (length objs, objs ++ [EVAllocator_new]).

Definition CreateEVAllocator (objs : list EVAllocator) : nat * list EVAllocator :=
  new_EVAllocator objs.

Definition CreateAllocator (objs : list EVAllocator) : nat * list EVAllocator :=
  CreateEVAllocator objs.

Definition CreateSubAllocator (numa_node : Z) (objs : list EVAllocator)
  : EVSubAllocator * list EVAllocator :=
  let '(ev_allocator, objs) := new_EVAllocator objs in
  ({| ev_allocator_ := ev_allocator |}, objs).

(** The methods of the sub-allocator dereference [ev_allocator_]; [None] is
    the dereference of a pointer to no object. *)
Definition Alloc (alignment num_bytes : Z) (sub : EVSubAllocator)
    (objs : list EVAllocator) (w : world P)
  : option (ptr * list EVAllocator * world P) :=
  match objs !! ev_allocator_ sub with
  | Some this =>
      let '(p, this, w) := AllocateRaw alignment num_bytes this w in
      Some (p, <[ev_allocator_ sub := this]> objs, w)
  | None => None
  end.

Definition Free (p : ptr) (num_bytes : Z) (sub : EVSubAllocator)
    (objs : list EVAllocator) (w : world P)
  : option (list EVAllocator * world P) :=
  match objs !! ev_allocator_ sub with
  | Some this =>
      let '(this, w) := DeallocateRaw p this w in
      Some (<[ev_allocator_ sub := this]> objs, w)
  | None => None
  end.

End Factory.

(** ** Sequences of calls *)

(** The public methods, as the calls a client makes on one allocator. *)
Inductive call : Type :=
| CallAllocateRaw (alignment num_bytes : Z)
| CallDeallocateRaw (p : ptr)
| CallGetStats
| CallClearStats.

Section Runs.

Context {P : Port}.

Definition step (c : call) (st : EVAllocator * world P) : EVAllocator * world P :=
  match c with
  | CallAllocateRaw alignment num_bytes =>
      let '(_, this, w) := AllocateRaw alignment num_bytes (fst st) (snd st) in
      (this, w)
  | CallDeallocateRaw p => DeallocateRaw p (fst st) (snd st)
  | CallGetStats => st
  | CallClearStats => (ClearStats (fst st), snd st)
  end.

Fixpoint run (cs : list call) (st : EVAllocator * world P) : EVAllocator * world P :=
  match cs with
  | [] => st
  | c :: cs => run cs (step c st)
  end.

(** Counting the warnings of each kind in a log. *)
Definition is_single (m : warning) : bool :=
  match m with SingleAllocationWarning _ => true | _ => false end.

Definition is_total (m : warning) : bool :=
  match m with TotalAllocationWarning _ => true | _ => false end.

Definition single_warnings (l : list warning) : Z :=
  Z.of_nat (length (List.filter is_single l)).

Definition total_warnings (l : list warning) : Z :=
  Z.of_nat (length (List.filter is_total l)).

End Runs.

(** ** Notions used by the properties *)

Section Notions.

Context {P : Port}.

(** The sum of the sizes that the size query reports for the blocks of
    [live]. *)
Definition sum_sizes (s : sys P) (live : list ptr) : Z :=
  fold_right (fun q acc => MallocExtension_GetAllocatedSize q s + acc) 0 live.

(** [paired_run w0 live this w]: a fresh allocator, created in the process
    state [w0], has reached the state [this], and the process the state [w],
    through allocations, deallocations and resets in which every pointer
    freed is null or a pointer that [AllocateRaw] returned and that was not
    freed since; [live] lists the blocks returned and not yet freed.
    ([GetStats] changes nothing and needs no rule.) *)
Inductive paired_run (w0 : world P) : list ptr -> EVAllocator -> world P -> Prop :=
| paired_start :
    paired_run w0 [] EVAllocator_new w0
| paired_AllocateRaw live this w alignment num_bytes p this' w' :
    paired_run w0 live this w ->
    AllocateRaw alignment num_bytes this w = (p, this', w') ->
    paired_run w0 (if p =? nullptr then live else p :: live) this' w'
| paired_DeallocateRaw live this w p this' w' :
    paired_run w0 live this w ->
    In p live \/ p = nullptr ->
    DeallocateRaw p this w = (this', w') ->
    paired_run w0 (List.remove Z.eq_dec p live) this' w'
| paired_ClearStats live this w :
    paired_run w0 live this w ->
    paired_run w0 live (ClearStats this) w.

(** The invariant of the statistics. *)
Definition peak_ok (st : AllocatorStats) : Prop :=
  bytes_in_use st <= peak_bytes_in_use st.

(** The subtraction of [DeallocateRaw] stays inside [int64]. *)
Definition no_underflow (c : call) (st : EVAllocator * world P) : Prop :=
  match c with
  | CallDeallocateRaw p =>
      ev_allocator_collect_stats (snd st) = true ->
      int64_min <= bytes_in_use (stats_ (fst st))
                   - MallocExtension_GetAllocatedSize p (os (snd st))
  | _ => True
  end.

(** The requests of [cs] above the per-allocation threshold [T]. *)
Definition is_large_request (T : Z) (c : call) : bool :=
  match c with
  | CallAllocateRaw _ num_bytes => exceeds_large num_bytes T
  | _ => false
  end.

Definition large_requests (T : Z) (cs : list call) : Z :=
  Z.of_nat (length (List.filter (is_large_request T) cs)).

(** [crosses T c st]: [c] is an allocation and leaves [bytes_in_use] above
    the cumulative threshold [T]. *)
Definition crosses (T : Z) (c : call) (st : EVAllocator * world P) : bool :=
  match c with
  | CallAllocateRaw _ _ => T <? bytes_in_use (stats_ (fst (step c st)))
  | _ => false
  end.

(** Some call of [cs], run from [st], crosses [T]. *)
Fixpoint ever_crosses (T : Z) (cs : list call) (st : EVAllocator * world P) : bool :=
  match cs with
  | [] => false
  | c :: cs => crosses T c st || ever_crosses T cs (step c st)
  end.

(** The accessors, called by name. *)
Definition call_accessor (a : accessor) (w : world P) : Z * world P :=
  match a with
  | Large => LargeAllocationWarningBytes w
  | Total => TotalAllocationWarningBytes w
  end.

Definition cached (a : accessor) (w : world P) : option Z :=
  match a with
  | Large => large_value w
  | Total => total_value w
  end.

Definition fraction (a : accessor) : Double.double :=
  match a with
  | Large => kLargeAllocationWarningThreshold
  | Total => kTotalAllocationWarningThreshold
  end.

(** A history of the process as far as the accessors are concerned: before
    each call the platform state has moved on by some [f]. *)
Fixpoint accessor_calls (evs : list ((sys P -> sys P) * accessor)) (w : world P)
  : list (accessor * Z) * world P :=
  match evs with
  | [] => ([], w)
  | (f, a) :: evs =>
      let '(v, w) := call_accessor a (set_os (f (os w)) w) in
      let '(vs, w) := accessor_calls evs w in
      ((a, v) :: vs, w)
  end.

(** The platform state at the first call of [a] in such a history. *)
Fixpoint sys_at_first_call (a : accessor) (evs : list ((sys P -> sys P) * accessor))
    (s : sys P) : option (sys P) :=
  match evs with
  | [] => None
  | (f, b) :: evs =>
      if decide (a = b) then Some (f s) else sys_at_first_call a evs (f s)
  end.

Definition queries_of (a : accessor) (w : world P) : nat :=
  length (List.filter (fun b => bool_decide (a = b)) (ram_queries w)).

End Notions.

(** ** A small platform *)

(** An instance of the platform, to run the allocator on concrete requests,
    failures included: a heap that never reuses an address, made of a table
    of blocks (address and usable size) and of the free memory left. *)

Record toy_sys : Type := {
  toy_blocks : list (ptr * Z);
  toy_free_ram : Z
}.

(** The first address above every block. *)
Definition toy_top (bs : list (ptr * Z)) : Z :=
  fold_right (fun b t => Z.max (fst b + Z.max 0 (snd b)) t) 0 bs.

(** Requests are rounded up to a multiple of 8, 8 at least. *)
Definition toy_usable (size : Z) : Z := Z.max 8 ((size + 7) / 8 * 8).

Fixpoint toy_size_of (p : ptr) (bs : list (ptr * Z)) : Z :=
  match bs with
  | [] => 0
  | b :: bs => if fst b =? p then to_uint64 (snd b) else toy_size_of p bs
  end.

Definition toy_GetAllocatedSize (p : ptr) (s : toy_sys) : Z :=
  if p =? nullptr then 0 else toy_size_of p (toy_blocks s).

Definition toy_AlignedMalloc (size alignment : Z) (s : toy_sys) : ptr * toy_sys :=
  let a := Z.max 1 alignment in
  if toy_usable size <=? toy_free_ram s then
    let p := (toy_top (toy_blocks s) / a + 1) * a in
    (p, {| toy_blocks := (p, toy_usable size) :: toy_blocks s;
           toy_free_ram := toy_free_ram s - toy_usable size |})
  else (nullptr, s).

Definition toy_AlignedFree (p : ptr) (s : toy_sys) : toy_sys :=
  if p =? nullptr then s
  else {| toy_blocks := List.filter (fun b => negb (fst b =? p)) (toy_blocks s);
          toy_free_ram := toy_free_ram s + toy_GetAllocatedSize p s |}.

Definition toy_port : Port :=
  {| sys := toy_sys;
     AvailableRam := toy_free_ram;
     AlignedMalloc := toy_AlignedMalloc;
     AlignedFree := toy_AlignedFree;
     MallocExtension_GetAllocatedSize := toy_GetAllocatedSize |}.

(** A machine with 10000 bytes of free memory and no block, in a process
    that collects statistics; the thresholds are then 1000 and, once the
    first block of 1200 bytes is gone, 4400. *)
Definition toy_sys0 : toy_sys := {| toy_blocks := []; toy_free_ram := 10000 |}.

Definition toy_world0 : world toy_port :=
  {| os := (toy_sys0 : sys toy_port);
     ev_allocator_collect_stats := true;
     large_value := None;
     total_value := None;
     ram_queries := [];
     log := [] |}.

(** The same machine in a process whose thresholds are already cached as
    1000 and 5000. *)
Definition toy_world_cached : world toy_port :=
  {| os := (toy_sys0 : sys toy_port);
     ev_allocator_collect_stats := true;
     large_value := Some 1000;
     total_value := Some 5000;
     ram_queries := [Large; Total];
     log := [] |}.

(** Requests of 1200 bytes, each above the threshold of 1000. *)
Definition toy_requests (n : nat) : list call :=
  repeat (CallAllocateRaw 16 1200) n.

(** A history of accessor calls on a machine whose free memory changes. *)
Definition toy_history : list ((sys toy_port -> sys toy_port) * accessor) :=
  [ (fun s => s, Large);
    (fun s => {| toy_blocks := toy_blocks s; toy_free_ram := 8800 |}, Total);
    (fun s => {| toy_blocks := toy_blocks s; toy_free_ram := 300 |}, Large);
    (fun s => s, Total) ].

(** A history in which an accessor is called when [ram] bytes are free, and
    again when 1 byte is. *)
Definition toy_history_at (ram : Z) (a : accessor)
  : list ((sys toy_port -> sys toy_port) * accessor) :=
  [ (fun s => {| toy_blocks := toy_blocks s; toy_free_ram := ram |}, a);
    (fun s => {| toy_blocks := toy_blocks s; toy_free_ram := 1 |}, a) ].

(** ** Notions used by the further properties *)

Definition is_AllocateRaw (c : call) : bool :=
  match c with CallAllocateRaw _ _ => true | _ => false end.

Definition is_ClearStats (c : call) : bool :=
  match c with CallClearStats => true | _ => false end.

(** A sequence of calls without [AllocateRaw], without [ClearStats]. *)
Definition no_AllocateRaw (cs : list call) : bool :=
  forallb (fun c => negb (is_AllocateRaw c)) cs.

Definition no_ClearStats (cs : list call) : bool :=
  forallb (fun c => negb (is_ClearStats c)) cs.

(** The calls of [AllocateRaw] made since the last [ClearStats], counted
    from [n]. *)
Fixpoint allocs_since_clear (cs : list call) (n : Z) : Z :=
  match cs with
  | [] => n
  | CallAllocateRaw _ _ :: cs => allocs_since_clear cs (n + 1)
  | CallClearStats :: cs => allocs_since_clear cs 0
  | _ :: cs => allocs_since_clear cs n
  end.

(** The record of the queries agrees with the caches: an accessor whose
    value is cached has asked once, the other one never. *)
Definition cache_consistent {P : Port} (w : world P) : Prop :=
  forall a : accessor,
    queries_of a w = match cached a w with Some _ => 1%nat | None => 0%nat end.

(** * Properties *)

(** ** Elementary facts on [AllocateRaw] *)

(** Case analysis on an innermost scrutinee of the goal. *)
Ltac break_match :=
  match goal with
  | |- context [match ?x with _ => _ end] =>
      lazymatch x with
      | context [match _ with _ => _ end] => fail
      | _ => destruct x eqn:?
      end
  end.

Ltac open_AllocateRaw :=
  unfold AllocateRaw, LargeAllocationWarningBytes, TotalAllocationWarningBytes,
    LOG, set_os;
  repeat (break_match; simpl in *).

Section Facts.

Context {P : Port}.

Implicit Types (this : EVAllocator) (w : world P).

Lemma run_app (cs1 cs2 : list call) (st : EVAllocator * world P) :
  run (cs1 ++ cs2) st = run cs2 (run cs1 st).
Proof. revert st. induction cs1 as [|c cs1 IH]; intros st; simpl; auto. Qed.


Lemma to_int64_range (z : Z) : int64_min <= to_int64 z <= int64_max.
Proof.
  unfold to_int64, int64_min, int64_max.
  pose proof (Z.mod_pos_bound (z + 2 ^ 63) (2 ^ 64)). lia.
Qed.

Lemma to_int64_id (z : Z) : int64_min <= z <= int64_max -> to_int64 z = z.
Proof.
  unfold to_int64, int64_min, int64_max. intros H.
  rewrite Z.mod_small; lia.
Qed.

Lemma to_int64_add_l (x y : Z) : to_int64 (to_int64 x + y) = to_int64 (x + y).
Proof.
  unfold to_int64.
  replace ((x + 2 ^ 63) mod 2 ^ 64 - 2 ^ 63 + y + 2 ^ 63)
    with ((x + 2 ^ 63) mod 2 ^ 64 + y) by lia.
  rewrite Zplus_mod_idemp_l. f_equal. f_equal. lia.
Qed.

Lemma to_int64_succ_neq (z : Z) :
  int64_min <= z <= int64_max -> to_int64 (z + 1) <> z.
Proof.
  unfold int64_min, int64_max. intros H.
  destruct (Z.eq_dec z (2 ^ 63 - 1)) as [->|Hne].
  - vm_compute. discriminate.
  - rewrite to_int64_id; unfold int64_min, int64_max; lia.
Qed.

(** The pointer and the platform state are those of the primitive, called
    with alignment 8. *)
Lemma AllocateRaw_ptr alignment num_bytes this w :
  fst (fst (AllocateRaw alignment num_bytes this w))
  = fst (AlignedMalloc num_bytes 8 (os w)).
Proof. open_AllocateRaw; congruence. Qed.

Lemma AllocateRaw_os alignment num_bytes this w :
  os (snd (AllocateRaw alignment num_bytes this w))
  = snd (AlignedMalloc num_bytes 8 (os w)).
Proof. open_AllocateRaw; congruence. Qed.

Lemma AllocateRaw_flag alignment num_bytes this w :
  ev_allocator_collect_stats (snd (AllocateRaw alignment num_bytes this w))
  = ev_allocator_collect_stats w.
Proof. open_AllocateRaw; congruence. Qed.

Lemma AllocateRaw_large_value alignment num_bytes this w :
  large_value (snd (AllocateRaw alignment num_bytes this w))
  = Some (fst (LargeAllocationWarningBytes w)).
Proof. open_AllocateRaw; congruence. Qed.

(** The statistics after an allocation, statistics being collected. *)
Lemma AllocateRaw_stats alignment num_bytes this w :
  ev_allocator_collect_stats w = true ->
  let p := fst (AlignedMalloc num_bytes 8 (os w)) in
  let s := snd (AlignedMalloc num_bytes 8 (os w)) in
  let alloc_size := MallocExtension_GetAllocatedSize p s in
  let bytes := to_int64 (bytes_in_use (stats_ this) + alloc_size) in
  stats_ (snd (fst (AllocateRaw alignment num_bytes this w)))
  = {| num_allocs := to_int64 (num_allocs (stats_ this) + 1);
       bytes_in_use := bytes;
       peak_bytes_in_use := Z.max (peak_bytes_in_use (stats_ this)) bytes;
       largest_alloc_size :=
         Z.max (largest_alloc_size (stats_ this)) (to_int64 alloc_size) |}.
Proof. intros Hflag. open_AllocateRaw; congruence. Qed.

(** Without statistics the record is left alone. *)
Lemma AllocateRaw_stats_off alignment num_bytes this w :
  ev_allocator_collect_stats w = false ->
  stats_ (snd (fst (AllocateRaw alignment num_bytes this w))) = stats_ this.
Proof. intros Hflag. open_AllocateRaw; congruence. Qed.

(** The accessors touch nothing but their own cache and the record of the
    queries. *)
Lemma Large_frame w :
  os (snd (LargeAllocationWarningBytes w)) = os w
  /\ ev_allocator_collect_stats (snd (LargeAllocationWarningBytes w))
     = ev_allocator_collect_stats w
  /\ total_value (snd (LargeAllocationWarningBytes w)) = total_value w
  /\ log (snd (LargeAllocationWarningBytes w)) = log w
  /\ large_value (snd (LargeAllocationWarningBytes w))
     = Some (fst (LargeAllocationWarningBytes w)).
Proof.
  unfold LargeAllocationWarningBytes.
  destruct (large_value w) eqn:H; cbn; auto.
Qed.

Lemma Total_frame w :
  os (snd (TotalAllocationWarningBytes w)) = os w
  /\ ev_allocator_collect_stats (snd (TotalAllocationWarningBytes w))
     = ev_allocator_collect_stats w
  /\ large_value (snd (TotalAllocationWarningBytes w)) = large_value w
  /\ log (snd (TotalAllocationWarningBytes w)) = log w
  /\ total_value (snd (TotalAllocationWarningBytes w))
     = Some (fst (TotalAllocationWarningBytes w)).
Proof.
  unfold TotalAllocationWarningBytes.
  destruct (total_value w) eqn:H; cbn; auto.
Qed.

Lemma Large_cached w (v : Z) :
  large_value w = Some v -> LargeAllocationWarningBytes w = (v, w).
Proof. unfold LargeAllocationWarningBytes. intros ->. reflexivity. Qed.

Lemma Total_cached w (v : Z) :
  total_value w = Some v -> TotalAllocationWarningBytes w = (v, w).
Proof. unfold TotalAllocationWarningBytes. intros ->. reflexivity. Qed.

(** [AllocateRaw], phase by phase. *)
Lemma AllocateRaw_unfold alignment num_bytes this w :
  let large := fst (LargeAllocationWarningBytes w) in
  let w1 := snd (LargeAllocationWarningBytes w) in
  let warn1 := exceeds_large num_bytes large
               && (single_allocation_warning_count_ this <? kMaxSingleAllocationWarnings) in
  let single := single_allocation_warning_count_ this + (if warn1 then 1 else 0) in
  let w2 := if warn1 then LOG (SingleAllocationWarning num_bytes) w1 else w1 in
  let p := fst (AlignedMalloc num_bytes 8 (os w)) in
  let w3 := set_os (snd (AlignedMalloc num_bytes 8 (os w))) w2 in
  let alloc_size := MallocExtension_GetAllocatedSize p (os w3) in
  let bytes := to_int64 (bytes_in_use (stats_ this) + alloc_size) in
  let st := {| num_allocs := to_int64 (num_allocs (stats_ this) + 1);
               bytes_in_use := bytes;
               peak_bytes_in_use := Z.max (peak_bytes_in_use (stats_ this)) bytes;
               largest_alloc_size :=
                 Z.max (largest_alloc_size (stats_ this)) (to_int64 alloc_size) |} in
  let total := fst (TotalAllocationWarningBytes w3) in
  let w4 := snd (TotalAllocationWarningBytes w3) in
  let warn2 := (total <? bytes)
               && (total_allocation_warning_count_ this <? kMaxTotalAllocationWarnings) in
  AllocateRaw alignment num_bytes this w
  = if ev_allocator_collect_stats w then
      (p,
       {| stats_ := st;
          single_allocation_warning_count_ := single;
          total_allocation_warning_count_ :=
            total_allocation_warning_count_ this + (if warn2 then 1 else 0) |},
       if warn2 then LOG (TotalAllocationWarning bytes) w4 else w4)
    else
      (p,
       {| stats_ := stats_ this;
          single_allocation_warning_count_ := single;
          total_allocation_warning_count_ := total_allocation_warning_count_ this |},
       w3).
Proof.
  cbv zeta.
  destruct (Large_frame w) as (Hos & Hflag & _ & _ & _).
  unfold AllocateRaw.
  destruct (LargeAllocationWarningBytes w) as [large w1]. cbn [fst snd] in *.
  destruct (exceeds_large num_bytes large
            && (single_allocation_warning_count_ this <? kMaxSingleAllocationWarnings));
    cbn [LOG os set_os ev_allocator_collect_stats stats_
         single_allocation_warning_count_ total_allocation_warning_count_];
    rewrite Hos, Hflag;
    destruct (AlignedMalloc num_bytes 8 (os w)) as [p s]; cbn [fst snd];
    destruct (ev_allocator_collect_stats w); cbn [os];
    try (destruct this; cbn; rewrite ?Z.add_0_r; reflexivity);
    match goal with
    | |- context [TotalAllocationWarningBytes ?x] =>
        destruct (TotalAllocationWarningBytes x) as [total w4]
    end;
    cbn [fst snd bytes_in_use];
    match goal with
    | |- context [if ?b then _ else _] => destruct b
    end;
    rewrite ?Z.add_0_r; reflexivity.
Qed.

Lemma step_AllocateRaw alignment num_bytes (st : EVAllocator * world P) :
  step (CallAllocateRaw alignment num_bytes) st
  = (snd (fst (AllocateRaw alignment num_bytes (fst st) (snd st))),
     snd (AllocateRaw alignment num_bytes (fst st) (snd st))).
Proof.
  unfold step.
  destruct (AllocateRaw alignment num_bytes (fst st) (snd st)) as [[p this] w].
  reflexivity.
Qed.

Lemma DeallocateRaw_flag p this w :
  ev_allocator_collect_stats (snd (DeallocateRaw p this w))
  = ev_allocator_collect_stats w.
Proof. reflexivity. Qed.

End Facts.

(** ** The small platform meets the contract *)

Lemma toy_top_above (bs : list (ptr * Z)) (q : ptr) :
  In q (map fst bs) -> q <= toy_top bs.
Proof.
  induction bs as [|b bs IH]; cbn [toy_top fold_right map In]; [tauto|].
  fold (toy_top bs).
  intros [<-|Hq]; [lia|]. specialize (IH Hq). lia.
Qed.

Lemma toy_top_nonneg (bs : list (ptr * Z)) : 0 <= toy_top bs.
Proof.
  induction bs as [|b bs IH]; cbn [toy_top fold_right]; [lia|].
  fold (toy_top bs). lia.
Qed.

Lemma toy_next_above (t a : Z) : 1 <= a -> t < (t / a + 1) * a.
Proof.
  intros Ha. pose proof (Z.mod_pos_bound t a ltac:(lia)).
  pose proof (Z.div_mod t a ltac:(lia)). nia.
Qed.

Lemma toy_size_of_range (p : ptr) (bs : list (ptr * Z)) :
  0 <= toy_size_of p bs < 2 ^ 64.
Proof.
  induction bs as [|b bs IH]; simpl; [lia|].
  destruct (fst b =? p); [|exact IH].
  unfold to_uint64. apply Z.mod_pos_bound. lia.
Qed.

Lemma toy_size_of_filter (p q : ptr) (bs : list (ptr * Z)) :
  q <> p ->
  toy_size_of q (List.filter (fun b => negb (fst b =? p)) bs) = toy_size_of q bs.
Proof.
  intros Hne. induction bs as [|b bs IH]; simpl; [reflexivity|].
  destruct (Z.eqb_spec (fst b) p) as [Hp|Hp]; simpl.
  - destruct (Z.eqb_spec (fst b) q); [congruence|exact IH].
  - destruct (fst b =? q); [reflexivity|exact IH].
Qed.

Lemma toy_In_filter (p q : ptr) (bs : list (ptr * Z)) :
  q <> p -> In q (map fst bs) ->
  In q (map fst (List.filter (fun b => negb (fst b =? p)) bs)).
Proof.
  intros Hne. induction bs as [|b bs IH]; simpl; [tauto|].
  intros [Hq|Hq].
  - destruct (Z.eqb_spec (fst b) p); [congruence|simpl; auto].
  - destruct (fst b =? p); simpl; auto.
Qed.

Global Program Instance toy_port_spec : PortSpec toy_port :=
  {| allocated := fun s p => In p (map fst (toy_blocks s)) |}.
Next Obligation.
  intros p s. simpl. unfold toy_GetAllocatedSize.
  destruct (p =? nullptr); [lia|apply toy_size_of_range].
Qed.
Next Obligation. reflexivity. Qed.
Next Obligation.
  simpl. unfold toy_AlignedMalloc. intros n a s p s' H Hp Hin.
  destruct (toy_usable n <=? toy_free_ram s); inversion H; subst; [|congruence].
  apply toy_top_above in Hin.
  pose proof (toy_next_above (toy_top (toy_blocks s)) (Z.max 1 a)). lia.
Qed.
Next Obligation.
  simpl. unfold toy_AlignedMalloc. intros n a s p s' H Hp.
  destruct (toy_usable n <=? toy_free_ram s); inversion H; subst; [|congruence].
  simpl. auto.
Qed.
Next Obligation.
  simpl. unfold toy_AlignedMalloc. intros n a s p s' q H Hin.
  destruct (toy_usable n <=? toy_free_ram s); inversion H; subst; simpl; auto.
Qed.
Next Obligation.
  simpl. unfold toy_AlignedMalloc, toy_GetAllocatedSize. intros n a s p s' q H Hin.
  destruct (toy_usable n <=? toy_free_ram s); inversion H; subst; [|reflexivity].
  destruct (q =? nullptr); [reflexivity|]. simpl.
  apply toy_top_above in Hin.
  pose proof (toy_next_above (toy_top (toy_blocks s)) (Z.max 1 a)).
  destruct (Z.eqb_spec ((toy_top (toy_blocks s) / Z.max 1 a + 1) * Z.max 1 a) q);
    [lia|reflexivity].
Qed.
Next Obligation. reflexivity. Qed.
Next Obligation.
  simpl. unfold toy_AlignedFree. intros p s q Hin Hne.
  destruct (p =? nullptr); [exact Hin|]. simpl. apply toy_In_filter; assumption.
Qed.
Next Obligation.
  simpl. unfold toy_AlignedFree, toy_GetAllocatedSize. intros p s q Hin Hne.
  destruct (p =? nullptr); [reflexivity|]. simpl.
  destruct (q =? nullptr); [reflexivity|]. apply toy_size_of_filter; assumption.
Qed.


(** ** The return value and the alignment *)

Section Pointer.

Context {P : Port}.

Implicit Types (this : EVAllocator) (w : world P).

(** C6. For all alignments [a1] and [a2], [AllocateRaw a1 num_bytes] and
    [AllocateRaw a2 num_bytes] give, from the same state, the same pointer,
    the same allocator state and the same process state (statistics,
    counters and log included); the primitive is called with alignment 8. *)
Theorem AllocateRaw_alignment_overridden a1 a2 num_bytes this w :
  AllocateRaw a1 num_bytes this w = AllocateRaw a2 num_bytes this w
  /\ fst (fst (AllocateRaw a1 num_bytes this w))
     = fst (AlignedMalloc num_bytes 8 (os w))
  /\ os (snd (AllocateRaw a1 num_bytes this w))
     = snd (AlignedMalloc num_bytes 8 (os w)).
Proof.
  split; [reflexivity|].
  split; [apply AllocateRaw_ptr|apply AllocateRaw_os].
Qed.

(** C9. [AllocateRaw] returns the pointer of the aligned-allocation
    primitive, null included, and leaves the platform in the state that this
    one call of the primitive produced (no second attempt); the pointer is
    the same for every state of the allocator, of the flag, of the caches and
    of the log, hence with and without warnings. *)
Theorem AllocateRaw_returns_primitive_pointer alignment num_bytes this w :
  fst (fst (AllocateRaw alignment num_bytes this w))
  = fst (AlignedMalloc num_bytes 8 (os w))
  /\ os (snd (AllocateRaw alignment num_bytes this w))
     = snd (AlignedMalloc num_bytes 8 (os w))
  /\ forall this2 flag large total queries lg,
       fst (fst (AllocateRaw alignment num_bytes this2
                   {| os := os w;
                      ev_allocator_collect_stats := flag;
                      large_value := large;
                      total_value := total;
                      ram_queries := queries;
                      log := lg |}))
       = fst (fst (AllocateRaw alignment num_bytes this w)).
Proof.
  split; [apply AllocateRaw_ptr|].
  split; [apply AllocateRaw_os|].
  intros. rewrite !AllocateRaw_ptr. reflexivity.
Qed.

(** C10. Statistics being collected, a call of [AllocateRaw] adds exactly
    one to [num_allocs] whatever the primitive returns, null included, so
    that the allocator state differs from the one before the call.  (The
    counter is an [int64] below its maximum.) *)
Theorem AllocateRaw_counts_failures alignment num_bytes this w :
  ev_allocator_collect_stats w = true ->
  int64_min <= num_allocs (stats_ this) < int64_max ->
  num_allocs (stats_ (snd (fst (AllocateRaw alignment num_bytes this w))))
  = num_allocs (stats_ this) + 1
  /\ snd (fst (AllocateRaw alignment num_bytes this w)) <> this.
Proof.
  intros Hflag Hrange.
  pose proof (AllocateRaw_stats alignment num_bytes this w Hflag) as Hst.
  cbv zeta in Hst.
  assert (Hn : num_allocs (stats_ (snd (fst (AllocateRaw alignment num_bytes this w))))
               = num_allocs (stats_ this) + 1).
  { rewrite Hst. cbn [num_allocs]. apply to_int64_id.
    unfold int64_min, int64_max in *. lia. }
  split; [exact Hn|].
  intros Heq. rewrite Heq in Hn. lia.
Qed.

End Pointer.

(** ** Resetting the statistics *)

(** C5. [ClearStats] sets [num_allocs] and [largest_alloc_size] to 0 and
    [peak_bytes_in_use] to the current [bytes_in_use]; it leaves
    [bytes_in_use] and the two warning counters as they are, and [GetStats]
    then returns exactly this record. *)
Theorem ClearStats_frame (this : EVAllocator) :
  num_allocs (stats_ (ClearStats this)) = 0
  /\ peak_bytes_in_use (stats_ (ClearStats this)) = bytes_in_use (stats_ this)
  /\ largest_alloc_size (stats_ (ClearStats this)) = 0
  /\ bytes_in_use (stats_ (ClearStats this)) = bytes_in_use (stats_ this)
  /\ single_allocation_warning_count_ (ClearStats this)
     = single_allocation_warning_count_ this
  /\ total_allocation_warning_count_ (ClearStats this)
     = total_allocation_warning_count_ this
  /\ GetStats (ClearStats this)
     = Some {| num_allocs := 0;
               bytes_in_use := bytes_in_use (stats_ this);
               peak_bytes_in_use := bytes_in_use (stats_ this);
               largest_alloc_size := 0 |}.
Proof. repeat split. Qed.

(** ** The peak never falls below the bytes in use *)

Section Peak.

Context {P : Port} {PS : PortSpec P}.

Implicit Types (this : EVAllocator) (w : world P).

Lemma to_int64_le (z : Z) : int64_min <= z -> to_int64 z <= z.
Proof.
  unfold to_int64, int64_min. intros Hz.
  pose proof (Z.mod_le (z + 2 ^ 63) (2 ^ 64) ltac:(lia) ltac:(lia)). lia.
Qed.

Lemma AllocateRaw_peak_ok alignment num_bytes this w :
  peak_ok (stats_ this) ->
  peak_ok (stats_ (snd (fst (AllocateRaw alignment num_bytes this w)))).
Proof.
  intros Hok. destruct (ev_allocator_collect_stats w) eqn:Hflag.
  - rewrite AllocateRaw_stats by exact Hflag. unfold peak_ok. cbn. lia.
  - rewrite AllocateRaw_stats_off by exact Hflag. exact Hok.
Qed.

Lemma DeallocateRaw_peak_ok p this w :
  peak_ok (stats_ this) ->
  no_underflow (CallDeallocateRaw p) (this, w) ->
  peak_ok (stats_ (fst (DeallocateRaw p this w))).
Proof.
  unfold peak_ok, no_underflow, DeallocateRaw. cbn [fst snd].
  intros Hok Hlow. destruct (ev_allocator_collect_stats w); [|exact Hok].
  cbn [stats_ bytes_in_use peak_bytes_in_use].
  pose proof (GetAllocatedSize_range p (os w)) as Hsize.
  pose proof (to_int64_le _ (Hlow eq_refl)). lia.
Qed.

(** C2. [peak_bytes_in_use >= bytes_in_use] holds for a new allocator and
    every call keeps it, whether statistics are collected or not:
    [AllocateRaw], [ClearStats], [GetStats] (whose snapshot satisfies it
    too), and [DeallocateRaw] as long as its subtraction stays inside
    [int64]. *)
Theorem peak_bytes_invariant :
  peak_ok (stats_ EVAllocator_new)
  /\ forall (c : call) this w,
       peak_ok (stats_ this) ->
       no_underflow c (this, w) ->
       peak_ok (stats_ (fst (step c (this, w))))
       /\ exists st, GetStats (fst (step c (this, w))) = Some st /\ peak_ok st.
Proof.
  split; [unfold peak_ok; cbn; lia|].
  intros c this w Hok Hlow.
  assert (H : peak_ok (stats_ (fst (step c (this, w))))).
  { destruct c as [alignment num_bytes|p| |].
    - rewrite step_AllocateRaw. cbn [fst snd]. apply AllocateRaw_peak_ok, Hok.
    - apply DeallocateRaw_peak_ok; assumption.
    - exact Hok.
    - unfold peak_ok. cbn. lia. }
  split; [exact H|]. eexists. split; [reflexivity|exact H].
Qed.

End Peak.

(** ** The two warning caps *)

Section Warnings.

Context {P : Port}.

Implicit Types (this : EVAllocator) (w : world P) (st : EVAllocator * world P).

Lemma single_warnings_snoc (l : list warning) (m : warning) :
  single_warnings (l ++ [m]) = single_warnings l + (if is_single m then 1 else 0).
Proof.
  unfold single_warnings. rewrite List.filter_app, length_app. cbn [List.filter].
  destruct (is_single m); cbn [length]; lia.
Qed.

Lemma total_warnings_snoc (l : list warning) (m : warning) :
  total_warnings (l ++ [m]) = total_warnings l + (if is_total m then 1 else 0).
Proof.
  unfold total_warnings. rewrite List.filter_app, length_app. cbn [List.filter].
  destruct (is_total m); cbn [length]; lia.
Qed.

Lemma large_requests_cons (T : Z) (c : call) (cs : list call) :
  large_requests T (c :: cs)
  = (if is_large_request T c then 1 else 0) + large_requests T cs.
Proof.
  unfold large_requests. cbn [List.filter].
  destruct (is_large_request T c); cbn [length]; lia.
Qed.

Lemma large_requests_nonneg (T : Z) (cs : list call) : 0 <= large_requests T cs.
Proof. unfold large_requests. lia. Qed.

(** What one allocation does to the single-allocation counter and to the
    log, [T] being the per-allocation threshold cached when it returns. *)
Lemma AllocateRaw_single alignment num_bytes this w T :
  large_value (snd (AllocateRaw alignment num_bytes this w)) = Some T ->
  let warn := exceeds_large num_bytes T
              && (single_allocation_warning_count_ this <? kMaxSingleAllocationWarnings) in
  single_allocation_warning_count_ (snd (fst (AllocateRaw alignment num_bytes this w)))
  = single_allocation_warning_count_ this + (if warn then 1 else 0)
  /\ single_warnings (log (snd (AllocateRaw alignment num_bytes this w)))
     = single_warnings (log w) + (if warn then 1 else 0).
Proof.
  rewrite AllocateRaw_large_value. intros [= <-]. cbv zeta.
  rewrite AllocateRaw_unfold. cbv zeta.
  destruct (Large_frame w) as (_ & _ & _ & Hlog & _).
  set (warn := exceeds_large _ _ && _).
  match goal with
  | |- context [TotalAllocationWarningBytes ?x] =>
      destruct (Total_frame x) as (_ & _ & _ & Hlog' & _)
  end.
  clearbody warn.
  destruct (ev_allocator_collect_stats w); cbn [fst snd single_allocation_warning_count_];
    (split; [reflexivity|]);
    destruct warn;
    repeat match goal with
           | |- context [log (if ?b then _ else _)] => destruct b
           end;
    cbn [LOG log set_os] in *; rewrite ?Hlog'; cbn [LOG log set_os];
    rewrite ?single_warnings_snoc, ?Hlog; cbn [is_single]; lia.
Qed.

(** The same for the cumulative counter, statistics being collected, [T]
    being the cumulative threshold cached when the allocation returns. *)
Lemma AllocateRaw_total alignment num_bytes this w T :
  ev_allocator_collect_stats w = true ->
  total_value (snd (AllocateRaw alignment num_bytes this w)) = Some T ->
  let this' := snd (fst (AllocateRaw alignment num_bytes this w)) in
  let warn := (T <? bytes_in_use (stats_ this'))
              && (total_allocation_warning_count_ this <? kMaxTotalAllocationWarnings) in
  total_allocation_warning_count_ this'
  = total_allocation_warning_count_ this + (if warn then 1 else 0)
  /\ total_warnings (log (snd (AllocateRaw alignment num_bytes this w)))
     = total_warnings (log w) + (if warn then 1 else 0).
Proof.
  intros Hflag. cbv zeta. rewrite AllocateRaw_unfold. cbv zeta. rewrite Hflag.
  destruct (Large_frame w) as (_ & _ & _ & Hlog & _).
  set (warn1 := exceeds_large _ _ && _). clearbody warn1.
  match goal with
  | |- context [TotalAllocationWarningBytes ?x] =>
      destruct (Total_frame x) as (_ & _ & _ & Hlog' & Hval);
      set (total := fst (TotalAllocationWarningBytes x)) in *;
      set (w4 := snd (TotalAllocationWarningBytes x)) in *
  end.
  cbn [fst snd stats_ bytes_in_use total_allocation_warning_count_].
  intros HT.
  assert (total = T) as ->.
  { destruct ((total <? _) && _) in HT; cbn [LOG total_value] in HT; congruence. }
  set (warn2 := (T <? _) && _). clearbody warn2 w4.
  split; [reflexivity|].
  destruct warn2; cbn [LOG log]; rewrite ?total_warnings_snoc, Hlog';
    cbn [is_total set_os log];
    destruct warn1; cbn [LOG log];
    rewrite ?total_warnings_snoc, ?Hlog; cbn [is_total]; lia.
Qed.

Lemma AllocateRaw_total_value alignment num_bytes this w :
  ev_allocator_collect_stats w = true ->
  exists T, total_value (snd (AllocateRaw alignment num_bytes this w)) = Some T.
Proof.
  intros Hflag. rewrite AllocateRaw_unfold. cbv zeta. rewrite Hflag.
  match goal with
  | |- context [TotalAllocationWarningBytes ?x] =>
      destruct (Total_frame x) as (_ & _ & _ & _ & Hval)
  end.
  eexists. cbn [snd].
  match goal with
  | |- context [if ?b then LOG (TotalAllocationWarning _) _ else _] => destruct b
  end; cbn [LOG total_value]; exact Hval.
Qed.

(** A cached threshold is never computed again. *)
Lemma AllocateRaw_total_value_kept alignment num_bytes this w (v : Z) :
  total_value w = Some v ->
  total_value (snd (AllocateRaw alignment num_bytes this w)) = Some v.
Proof.
  intros Hv. rewrite AllocateRaw_unfold. cbv zeta.
  destruct (Large_frame w) as (_ & _ & Htot & _ & _).
  assert (Hw3 : forall (b : bool) (s : sys P),
             total_value
               (set_os s (if b then LOG (SingleAllocationWarning num_bytes)
                                      (snd (LargeAllocationWarningBytes w))
                          else snd (LargeAllocationWarningBytes w))) = Some v).
  { intros [] s; cbn [set_os LOG total_value]; congruence. }
  destruct (ev_allocator_collect_stats w); cbn [snd]; [|apply Hw3].
  rewrite (Total_cached _ v (Hw3 _ _)). cbn [fst snd].
  match goal with
  | |- context [if ?b then LOG (TotalAllocationWarning _) _ else _] => destruct b
  end; cbn [LOG total_value]; apply Hw3.
Qed.

Lemma step_large_value (c : call) st (v : Z) :
  large_value (snd st) = Some v -> large_value (snd (step c st)) = Some v.
Proof.
  destruct st as [this w]. cbn [snd]. intros Hv. destruct c; cbn [step fst snd].
  - change (large_value (snd (step (CallAllocateRaw alignment num_bytes) (this, w)))
            = Some v).
    rewrite step_AllocateRaw. cbn [fst snd].
    rewrite AllocateRaw_large_value, (Large_cached w v Hv). reflexivity.
  - exact Hv.
  - exact Hv.
  - exact Hv.
Qed.

Lemma step_total_value (c : call) st (v : Z) :
  total_value (snd st) = Some v -> total_value (snd (step c st)) = Some v.
Proof.
  destruct st as [this w]. cbn [snd]. intros Hv. destruct c; cbn [step fst snd].
  - change (total_value (snd (step (CallAllocateRaw alignment num_bytes) (this, w)))
            = Some v).
    rewrite step_AllocateRaw. cbn [fst snd].
    apply AllocateRaw_total_value_kept, Hv.
  - exact Hv.
  - exact Hv.
  - exact Hv.
Qed.

Lemma run_large_value (cs : list call) st (v : Z) :
  large_value (snd st) = Some v -> large_value (snd (run cs st)) = Some v.
Proof.
  revert st. induction cs as [|c cs IH]; intros st Hv; cbn [run]; [exact Hv|].
  apply IH, step_large_value, Hv.
Qed.

Lemma run_total_value (cs : list call) st (v : Z) :
  total_value (snd st) = Some v -> total_value (snd (run cs st)) = Some v.
Proof.
  revert st. induction cs as [|c cs IH]; intros st Hv; cbn [run]; [exact Hv|].
  apply IH, step_total_value, Hv.
Qed.

Lemma step_flag (c : call) st :
  ev_allocator_collect_stats (snd (step c st)) = ev_allocator_collect_stats (snd st).
Proof.
  destruct c; try reflexivity.
  rewrite step_AllocateRaw. cbn [snd]. apply AllocateRaw_flag.
Qed.

Lemma run_flag (cs : list call) st :
  ev_allocator_collect_stats (snd (run cs st)) = ev_allocator_collect_stats (snd st).
Proof.
  revert st. induction cs as [|c cs IH]; intros st; cbn [run]; [reflexivity|].
  rewrite IH. apply step_flag.
Qed.

(** The calls other than [AllocateRaw] leave the counters and the log
    alone. *)
Lemma step_other_counters (c : call) st :
  (forall alignment num_bytes, c <> CallAllocateRaw alignment num_bytes) ->
  single_allocation_warning_count_ (fst (step c st))
  = single_allocation_warning_count_ (fst st)
  /\ total_allocation_warning_count_ (fst (step c st))
     = total_allocation_warning_count_ (fst st)
  /\ log (snd (step c st)) = log (snd st).
Proof.
  destruct st as [this w]. intros Hc. destruct c; cbn [step fst snd].
  - exfalso. eapply Hc. reflexivity.
  - unfold DeallocateRaw. destruct (ev_allocator_collect_stats w); cbn; auto.
  - auto.
  - auto.
Qed.

(** From a state whose counter is [k <= 5], a run logs as many
    single-allocation warnings as it has large requests, up to [5 - k]. *)
Lemma run_single_warnings (T : Z) (cs : list call) :
  forall st,
    (forall v, large_value (snd (run cs st)) = Some v -> v = T) ->
    single_allocation_warning_count_ (fst st) <= kMaxSingleAllocationWarnings ->
    let k := single_allocation_warning_count_ (fst st) in
    let d := Z.min (kMaxSingleAllocationWarnings - k) (large_requests T cs) in
    single_allocation_warning_count_ (fst (run cs st)) = k + d
    /\ single_warnings (log (snd (run cs st))) = single_warnings (log (snd st)) + d.
Proof.
  unfold kMaxSingleAllocationWarnings.
  induction cs as [|c cs IH]; intros st HT Hk; cbv zeta.
  - cbn [run]. change (large_requests T []) with 0. lia.
  - cbn [run] in *. rewrite large_requests_cons.
    pose proof (large_requests_nonneg T cs) as Hnn.
    assert (Hstep :
      let b := is_large_request T c
               && (single_allocation_warning_count_ (fst st) <? 5) in
      single_allocation_warning_count_ (fst (step c st))
      = single_allocation_warning_count_ (fst st) + (if b then 1 else 0)
      /\ single_warnings (log (snd (step c st)))
         = single_warnings (log (snd st)) + (if b then 1 else 0)).
    { destruct c as [alignment num_bytes|p| |].
      - rewrite step_AllocateRaw. cbn [fst snd is_large_request].
        apply AllocateRaw_single.
        destruct (large_value (snd (AllocateRaw alignment num_bytes (fst st) (snd st))))
          as [v|] eqn:Hv.
        + f_equal. apply HT. apply run_large_value.
          rewrite step_AllocateRaw. exact Hv.
        + rewrite AllocateRaw_large_value in Hv. discriminate.
      - cbn [is_large_request andb].
        destruct (step_other_counters (CallDeallocateRaw p) st) as (-> & _ & ->);
          [discriminate|lia].
      - cbn. lia.
      - cbn. lia. }
    cbv zeta in Hstep. destruct Hstep as [Hcount Hlog].
    specialize (IH (step c st) HT). cbv zeta in IH.
    destruct (is_large_request T c);
      destruct (Z.ltb_spec (single_allocation_warning_count_ (fst st)) 5);
      cbn [andb] in Hcount, Hlog;
      (destruct IH as [IH1 IH2]; [unfold kMaxSingleAllocationWarnings; lia|]);
      unfold kMaxSingleAllocationWarnings in *;
      rewrite IH1, IH2, Hcount, Hlog; lia.
Qed.

(** Once the counter has reached the cap, it stays there and no call logs a
    single-allocation warning. *)
Lemma run_single_capped (cs : list call) :
  forall st,
    kMaxSingleAllocationWarnings <= single_allocation_warning_count_ (fst st) ->
    kMaxSingleAllocationWarnings <= single_allocation_warning_count_ (fst (run cs st))
    /\ single_warnings (log (snd (run cs st))) = single_warnings (log (snd st)).
Proof.
  induction cs as [|c cs IH]; intros st Hcap; cbn [run]; [split; [exact Hcap|reflexivity]|].
  assert (Hstep :
    kMaxSingleAllocationWarnings <= single_allocation_warning_count_ (fst (step c st))
    /\ single_warnings (log (snd (step c st))) = single_warnings (log (snd st))).
  { destruct c as [alignment num_bytes|p| |].
    - rewrite step_AllocateRaw. cbn [fst snd].
      destruct (AllocateRaw_single alignment num_bytes (fst st) (snd st) _
                  (AllocateRaw_large_value alignment num_bytes (fst st) (snd st)))
        as [-> ->].
      destruct (Z.ltb_spec (single_allocation_warning_count_ (fst st))
                  kMaxSingleAllocationWarnings); [lia|].
      rewrite andb_false_r. lia.
    - destruct (step_other_counters (CallDeallocateRaw p) st) as (-> & _ & ->);
        [discriminate|auto].
    - auto.
    - auto. }
  destruct Hstep as [Hcap' Hlog]. destruct (IH _ Hcap') as [IH1 IH2].
  split; [exact IH1|congruence].
Qed.

(** When the threshold is not negative the unsigned comparison of the
    source is the comparison of the numbers. *)
Lemma exceeds_large_nonneg (num_bytes T : Z) :
  0 <= T <= int64_max -> exceeds_large num_bytes T = (T <? num_bytes).
Proof.
  unfold exceeds_large, to_uint64, int64_max. intros HT.
  rewrite Z.mod_small by lia. reflexivity.
Qed.

(** C3. For a new allocator in any process state, statistics collected or
    not, and any sequence of calls, [T] being the per-allocation threshold
    cached at the end: the single-allocation warnings logged are as many as
    the calls of [AllocateRaw] whose [num_bytes] exceeds [T], up to 5; with
    more than 5 such calls they are exactly 5; and from a state whose
    counter has reached 5 no sequence of calls logs any. *)
Theorem single_allocation_warnings_capped w (cs : list call) (T : Z) :
  large_value (snd (run cs (EVAllocator_new, w))) = Some T ->
  single_warnings (log (snd (run cs (EVAllocator_new, w))))
  = single_warnings (log w) + Z.min 5 (large_requests T cs)
  /\ (5 < large_requests T cs ->
      single_warnings (log (snd (run cs (EVAllocator_new, w))))
      = single_warnings (log w) + 5)
  /\ forall (cs' : list call) this' w',
       kMaxSingleAllocationWarnings <= single_allocation_warning_count_ this' ->
       single_warnings (log (snd (run cs' (this', w'))))
       = single_warnings (log w').
Proof.
  intros HT.
  destruct (run_single_warnings T cs (EVAllocator_new, w)) as [_ Hlog].
  { intros v Hv. congruence. }
  { cbn. unfold kMaxSingleAllocationWarnings. lia. }
  cbn [fst snd EVAllocator_new single_allocation_warning_count_] in Hlog.
  unfold kMaxSingleAllocationWarnings in Hlog. rewrite Z.sub_0_r in Hlog.
  split; [exact Hlog|]. split; [intros Hmore; rewrite Hlog; lia|].
  intros cs' this' w' Hcap. apply (run_single_capped cs' (this', w')), Hcap.
Qed.

Lemma ever_crosses_app (T : Z) (cs1 cs2 : list call) st :
  ever_crosses T (cs1 ++ cs2) st
  = ever_crosses T cs1 st || ever_crosses T cs2 (run cs1 st).
Proof.
  revert st. induction cs1 as [|c cs1 IH]; intros st; cbn [ever_crosses run app].
  - reflexivity.
  - rewrite IH, orb_assoc. reflexivity.
Qed.

(** Statistics being collected, from a state whose cumulative counter is 0
    or 1, a run logs one cumulative warning if the counter is 0 and some
    allocation crosses the threshold, and none otherwise. *)
Lemma run_total_warnings (T : Z) (cs : list call) :
  forall st,
    ev_allocator_collect_stats (snd st) = true ->
    (forall v, total_value (snd (run cs st)) = Some v -> v = T) ->
    0 <= total_allocation_warning_count_ (fst st) <= kMaxTotalAllocationWarnings ->
    let k := total_allocation_warning_count_ (fst st) in
    let d := if (k <? kMaxTotalAllocationWarnings) && ever_crosses T cs st
             then 1 else 0 in
    total_allocation_warning_count_ (fst (run cs st)) = k + d
    /\ total_warnings (log (snd (run cs st))) = total_warnings (log (snd st)) + d.
Proof.
  unfold kMaxTotalAllocationWarnings.
  induction cs as [|c cs IH]; intros st Hflag HT Hk; cbv zeta.
  - cbn [run ever_crosses]. rewrite andb_false_r. lia.
  - cbn [run ever_crosses] in *.
    assert (Hstep :
      let b := crosses T c st
               && (total_allocation_warning_count_ (fst st) <? 1) in
      total_allocation_warning_count_ (fst (step c st))
      = total_allocation_warning_count_ (fst st) + (if b then 1 else 0)
      /\ total_warnings (log (snd (step c st)))
         = total_warnings (log (snd st)) + (if b then 1 else 0)).
    { destruct c as [alignment num_bytes|p| |].
      - unfold crosses. rewrite step_AllocateRaw. cbn [fst snd].
        apply (AllocateRaw_total alignment num_bytes (fst st) (snd st) T Hflag).
        destruct (AllocateRaw_total_value alignment num_bytes (fst st) (snd st) Hflag)
          as [v Hv].
        rewrite Hv. f_equal. apply HT. apply run_total_value.
        rewrite step_AllocateRaw. exact Hv.
      - cbn [crosses andb].
        destruct (step_other_counters (CallDeallocateRaw p) st) as (_ & -> & ->);
          [discriminate|lia].
      - cbn. lia.
      - cbn. lia. }
    cbv zeta in Hstep. destruct Hstep as [Hcount Hlog].
    specialize (IH (step c st)). cbv zeta in IH. rewrite step_flag in IH.
    specialize (IH Hflag HT).
    destruct (crosses T c st);
      destruct (Z.ltb_spec (total_allocation_warning_count_ (fst st)) 1);
      cbn [andb orb] in Hcount, Hlog |- *;
      (destruct IH as [IH1 IH2]; [lia|]);
      revert IH1 IH2;
      destruct (Z.ltb_spec (total_allocation_warning_count_ (fst (step c st))) 1);
      destruct (ever_crosses T cs (step c st));
      cbn [andb]; intros IH1 IH2; lia.
Qed.

(** C4. Statistics being collected, for a new allocator, any sequence of
    calls [cs] followed by a call [c], and [T] the cumulative threshold
    cached after [c]: [c] logs a cumulative warning exactly when it is an
    [AllocateRaw] after which [bytes_in_use] exceeds [T] and no call of [cs]
    was one; so the warning comes at the first crossing, none before it, none
    after it, and the run has logged one warning if it has crossed and none
    if it has not. *)
Theorem total_allocation_warning_once w (cs : list call) (c : call) (T : Z) :
  ev_allocator_collect_stats w = true ->
  total_value (snd (step c (run cs (EVAllocator_new, w)))) = Some T ->
  total_warnings (log (snd (step c (run cs (EVAllocator_new, w)))))
  = total_warnings (log (snd (run cs (EVAllocator_new, w))))
    + (if crosses T c (run cs (EVAllocator_new, w))
          && negb (ever_crosses T cs (EVAllocator_new, w))
       then 1 else 0)
  /\ total_warnings (log (snd (step c (run cs (EVAllocator_new, w)))))
     = total_warnings (log w)
       + (if ever_crosses T (cs ++ [c]) (EVAllocator_new, w) then 1 else 0).
Proof.
  intros Hflag HT.
  assert (Hnew : 0 <= total_allocation_warning_count_ (fst (EVAllocator_new, w))
                 <= kMaxTotalAllocationWarnings).
  { cbn. unfold kMaxTotalAllocationWarnings. lia. }
  destruct (run_total_warnings T cs (EVAllocator_new, w) Hflag) as [_ Hcs];
    [|exact Hnew|].
  { intros v Hv. apply (step_total_value c) in Hv. congruence. }
  destruct (run_total_warnings T (cs ++ [c]) (EVAllocator_new, w) Hflag) as [_ Hall];
    [|exact Hnew|].
  { intros v Hv. rewrite run_app in Hv. cbn [run] in Hv. congruence. }
  rewrite run_app in Hall. cbn [run] in Hall.
  cbn [fst snd EVAllocator_new total_allocation_warning_count_] in Hcs, Hall.
  change (0 <? kMaxTotalAllocationWarnings) with true in Hcs, Hall.
  cbn [andb] in Hcs, Hall.
  split; [|exact Hall].
  rewrite Hall, Hcs, ever_crosses_app. cbn [ever_crosses]. rewrite orb_false_r.
  destruct (ever_crosses T cs (EVAllocator_new, w));
    destruct (crosses T c (run cs (EVAllocator_new, w))); cbn; lia.
Qed.

End Warnings.

(** ** The bytes in use are those of the live blocks *)

Section Live.

Context {P : Port} {PS : PortSpec P}.

Implicit Types (this : EVAllocator) (w : world P) (live : list ptr).

Lemma to_int64_sub_l (x y : Z) : to_int64 (to_int64 x - y) = to_int64 (x - y).
Proof. rewrite <- !Z.add_opp_r. apply to_int64_add_l. Qed.

Lemma sum_sizes_nonneg (s : sys P) live : 0 <= sum_sizes s live.
Proof.
  induction live as [|q live IH]; cbn [sum_sizes fold_right]; [lia|].
  fold (sum_sizes s live). pose proof (GetAllocatedSize_range q s). lia.
Qed.

Lemma sum_sizes_ext (s s' : sys P) live :
  (forall q, In q live ->
     MallocExtension_GetAllocatedSize q s' = MallocExtension_GetAllocatedSize q s) ->
  sum_sizes s' live = sum_sizes s live.
Proof.
  induction live as [|q live IH]; intros Hq; cbn [sum_sizes fold_right]; [reflexivity|].
  fold (sum_sizes s live) (sum_sizes s' live).
  rewrite IH, (Hq q); [reflexivity|left; reflexivity|].
  intros q' Hq'. apply Hq. right. exact Hq'.
Qed.

Lemma remove_absent (p : ptr) live :
  ~ In p live -> List.remove Z.eq_dec p live = live.
Proof.
  induction live as [|q live IH]; intros Hp; cbn [List.remove]; [reflexivity|].
  destruct (Z.eq_dec p q) as [->|Hne].
  - exfalso. apply Hp. left. reflexivity.
  - rewrite IH; [reflexivity|]. intros Hin. apply Hp. right. exact Hin.
Qed.

Lemma sum_sizes_remove (s : sys P) (p : ptr) live :
  List.NoDup live -> In p live ->
  sum_sizes s live
  = MallocExtension_GetAllocatedSize p s + sum_sizes s (List.remove Z.eq_dec p live).
Proof.
  induction live as [|q live IH]; intros Hnd Hin; [destruct Hin|].
  apply List.NoDup_cons_iff in Hnd. destruct Hnd as [Hq Hnd].
  cbn [List.remove]. destruct (Z.eq_dec p q) as [->|Hne].
  - rewrite remove_absent by exact Hq. reflexivity.
  - destruct Hin as [->|Hin]; [congruence|].
    cbn [sum_sizes fold_right]. fold (sum_sizes s live).
    fold (sum_sizes s (List.remove Z.eq_dec p live)).
    rewrite (IH Hnd Hin). lia.
Qed.

Lemma NoDup_remove_kept (p : ptr) live :
  List.NoDup live -> List.NoDup (List.remove Z.eq_dec p live).
Proof.
  induction live as [|q live IH]; intros Hnd; cbn [List.remove]; [exact Hnd|].
  apply List.NoDup_cons_iff in Hnd. destruct Hnd as [Hq Hnd].
  destruct (Z.eq_dec p q); [apply IH, Hnd|].
  apply List.NoDup_cons_iff. split; [|apply IH, Hnd].
  intros Hin. apply List.in_remove in Hin. tauto.
Qed.

(** What a well-paired run maintains: statistics stay enabled, the live
    blocks are distinct, not null and allocated, and [bytes_in_use] is the
    sum of their sizes as an [int64]. *)
Lemma paired_run_invariant w0 live this w :
  ev_allocator_collect_stats w0 = true ->
  paired_run w0 live this w ->
  ev_allocator_collect_stats w = true
  /\ List.NoDup live
  /\ (forall q, In q live -> q <> nullptr /\ allocated (os w) q)
  /\ bytes_in_use (stats_ this) = to_int64 (sum_sizes (os w) live).
Proof.
  intros Hflag0 Hrun.
  induction Hrun as [|live this w alignment num_bytes p this' w' Hrun IH Hcall
                     |live this w p this' w' Hrun IH Hp Hcall
                     |live this w Hrun IH].
  - split; [exact Hflag0|]. split; [apply List.NoDup_nil|].
    split; [intros q []|reflexivity].
  - destruct IH as (Hflag & Hnd & Hlive & Hbytes).
    pose proof (AllocateRaw_stats alignment num_bytes this w Hflag) as Hst.
    pose proof (AllocateRaw_ptr alignment num_bytes this w) as Hptr.
    pose proof (AllocateRaw_os alignment num_bytes this w) as Hos.
    pose proof (AllocateRaw_flag alignment num_bytes this w) as Hfl.
    rewrite Hcall in Hst, Hptr, Hos, Hfl. cbn [fst snd] in Hst, Hptr, Hos, Hfl.
    cbv zeta in Hst.
    destruct (AlignedMalloc num_bytes 8 (os w)) as [p0 s] eqn:Hmalloc.
    cbn [fst snd] in Hst, Hptr, Hos. subst p0.
    assert (Hsame : sum_sizes (os w') live = sum_sizes (os w) live).
    { rewrite Hos. apply sum_sizes_ext. intros q Hq.
      eapply AlignedMalloc_size; [exact Hmalloc|apply Hlive, Hq]. }
    split; [congruence|].
    rewrite Hst. cbn [bytes_in_use]. rewrite Hbytes, to_int64_add_l.
    destruct (Z.eqb_spec p nullptr) as [->|Hnn].
    + split; [exact Hnd|]. split.
      * intros q Hq. split; [apply Hlive, Hq|].
        rewrite Hos. eapply AlignedMalloc_keeps; [exact Hmalloc|apply Hlive, Hq].
      * rewrite GetAllocatedSize_null, Hsame. f_equal. lia.
    + split; [|split].
      * apply List.NoDup_cons_iff. split; [|exact Hnd].
        intros Hin. eapply AlignedMalloc_fresh; [exact Hmalloc|exact Hnn|].
        apply Hlive, Hin.
      * intros q [<-|Hq].
        -- split; [exact Hnn|]. rewrite Hos.
           eapply AlignedMalloc_new; [exact Hmalloc|exact Hnn].
        -- split; [apply Hlive, Hq|]. rewrite Hos.
           eapply AlignedMalloc_keeps; [exact Hmalloc|apply Hlive, Hq].
      * cbn [sum_sizes fold_right]. fold (sum_sizes (os w') live).
        rewrite Hsame, Hos. f_equal. lia.
  - destruct IH as (Hflag & Hnd & Hlive & Hbytes).
    unfold DeallocateRaw in Hcall. rewrite Hflag in Hcall.
    injection Hcall as <- <-.
    cbn [stats_ bytes_in_use set_os os ev_allocator_collect_stats].
    split; [exact Hflag|]. rewrite Hbytes, to_int64_sub_l.
    destruct Hp as [Hp| ->].
    + split; [apply NoDup_remove_kept, Hnd|]. split.
      * intros q Hq. apply List.in_remove in Hq. destruct Hq as [Hq Hne].
        split; [apply Hlive, Hq|]. apply AlignedFree_keeps; [apply Hlive, Hq|exact Hne].
      * rewrite (sum_sizes_remove (os w) p live Hnd Hp).
        rewrite (sum_sizes_ext (os w) (AlignedFree p (os w))).
        -- f_equal. lia.
        -- intros q Hq. apply List.in_remove in Hq. destruct Hq as [Hq Hne].
           apply AlignedFree_size; [apply Hlive, Hq|exact Hne].
    + assert (Hnot : ~ In nullptr live).
      { intros Hin. destruct (Hlive _ Hin) as [Hne _]. apply Hne. reflexivity. }
      rewrite (remove_absent _ _ Hnot), AlignedFree_null, GetAllocatedSize_null.
      split; [exact Hnd|]. split; [exact Hlive|]. f_equal. lia.
  - destruct IH as (Hflag & Hnd & Hlive & Hbytes).
    repeat split; try assumption; apply Hlive; assumption.
Qed.

(** C1. Statistics being collected, after any well-paired sequence of
    allocations and deallocations on a new allocator (resets and snapshots
    allowed in between), [bytes_in_use] is the sum of the sizes that the
    size query reports for the blocks still live; the sum is taken to fit
    [int64], as [bytes_in_use] is one. *)
Theorem bytes_in_use_is_live_sum w0 live this w :
  ev_allocator_collect_stats w0 = true ->
  paired_run w0 live this w ->
  sum_sizes (os w) live <= int64_max ->
  bytes_in_use (stats_ this) = sum_sizes (os w) live.
Proof.
  intros Hflag Hrun Hfit.
  destruct (paired_run_invariant w0 live this w Hflag Hrun) as (_ & _ & _ & ->).
  apply to_int64_id. pose proof (sum_sizes_nonneg (os w) live).
  unfold int64_min. lia.
Qed.

(** In a well-paired run the subtraction of [DeallocateRaw] does not
    underflow, as long as the live blocks fit [int64]. *)
Lemma paired_run_no_underflow w0 live this w (p : ptr) :
  ev_allocator_collect_stats w0 = true ->
  paired_run w0 live this w ->
  sum_sizes (os w) live <= int64_max ->
  In p live \/ p = nullptr ->
  no_underflow (CallDeallocateRaw p) (this, w).
Proof.
  intros Hflag Hrun Hfit Hp _. cbn [fst snd].
  destruct (paired_run_invariant w0 live this w Hflag Hrun) as (_ & Hnd & _ & ->).
  pose proof (sum_sizes_nonneg (os w) live) as Hnn.
  rewrite to_int64_id by (unfold int64_min; lia).
  destruct Hp as [Hp| ->].
  - rewrite (sum_sizes_remove (os w) p live Hnd Hp).
    pose proof (sum_sizes_nonneg (os w) (List.remove Z.eq_dec p live)).
    unfold int64_min. lia.
  - rewrite GetAllocatedSize_null. pose proof (sum_sizes_nonneg (os w) live).
    unfold int64_min. lia.
Qed.

End Live.

(** ** The thresholds are computed once *)

Section Thresholds.

Context {P : Port}.

Implicit Types (w : world P) (a b : accessor)
  (evs : list ((sys P -> sys P) * accessor)).

Lemma call_accessor_cached a w (v : Z) :
  cached a w = Some v -> call_accessor a w = (v, w).
Proof. destruct a; [apply Large_cached|apply Total_cached]. Qed.

Lemma queries_of_snoc a b (l : list accessor) :
  length (List.filter (fun c => bool_decide (a = c)) (l ++ [b]))
  = (length (List.filter (fun c => bool_decide (a = c)) l)
     + (if decide (a = b) then 1 else 0))%nat.
Proof.
  rewrite List.filter_app, length_app. cbn [List.filter].
  destruct (decide (a = b)) as [Heq|Hne].
  - rewrite (bool_decide_eq_true_2 _ Heq). reflexivity.
  - rewrite (bool_decide_eq_false_2 _ Hne). reflexivity.
Qed.

(** The first call asks the platform once and caches the product. *)
Lemma call_accessor_first a w :
  cached a w = None ->
  fst (call_accessor a w) = scaled_ram (fraction a) (AvailableRam (os w))
  /\ cached a (snd (call_accessor a w)) = Some (fst (call_accessor a w))
  /\ queries_of a (snd (call_accessor a w)) = (queries_of a w + 1)%nat.
Proof.
  unfold queries_of.
  destruct a; cbn [cached call_accessor fraction]; intros Hnone;
    [unfold LargeAllocationWarningBytes|unfold TotalAllocationWarningBytes];
    rewrite Hnone; cbn [fst snd large_value total_value ram_queries];
    rewrite queries_of_snoc; auto.
Qed.

(** A call of the other accessor changes neither the cache nor the count. *)
Lemma call_accessor_other a b w :
  a <> b ->
  cached a (snd (call_accessor b w)) = cached a w
  /\ queries_of a (snd (call_accessor b w)) = queries_of a w.
Proof.
  unfold queries_of. intros Hne.
  destruct a, b; try congruence; cbn [cached call_accessor];
    [unfold TotalAllocationWarningBytes; destruct (total_value w)
    |unfold LargeAllocationWarningBytes; destruct (large_value w)];
    cbn [fst snd large_value total_value ram_queries];
    rewrite ?queries_of_snoc; cbn; auto.
Qed.

Lemma call_accessor_os b w : os (snd (call_accessor b w)) = os w.
Proof. destruct b; [apply Large_frame|apply Total_frame]. Qed.

Lemma accessor_calls_cons (f : sys P -> sys P) b evs w :
  let r := call_accessor b (set_os (f (os w)) w) in
  accessor_calls ((f, b) :: evs) w
  = ((b, fst r) :: fst (accessor_calls evs (snd r)),
     snd (accessor_calls evs (snd r))).
Proof.
  cbv zeta. cbn [accessor_calls].
  destruct (call_accessor b (set_os (f (os w)) w)) as [v w1]. cbn [fst snd].
  destruct (accessor_calls evs w1) as [vs w2]. reflexivity.
Qed.

(** Once the value is cached, every call returns it and asks nothing. *)
Lemma accessor_calls_cached a evs :
  forall w (v0 : Z),
    cached a w = Some v0 ->
    queries_of a (snd (accessor_calls evs w)) = queries_of a w
    /\ forall v, In (a, v) (fst (accessor_calls evs w)) -> v = v0.
Proof.
  induction evs as [|[f b] evs IH]; intros w v0 Hv0.
  - cbn. tauto.
  - rewrite accessor_calls_cons. cbv zeta. cbn [fst snd].
    set (w' := set_os (f (os w)) w).
    assert (Hw' : cached a w' = Some v0) by (destruct a; exact Hv0).
    assert (Hq' : queries_of a w' = queries_of a w) by reflexivity.
    destruct (decide (a = b)) as [<-|Hne].
    + rewrite (call_accessor_cached a w' v0 Hw'). cbn [fst snd].
      destruct (IH w' v0 Hw') as [IHq IHv]. split; [congruence|].
      intros v [Heq|Hin]; [congruence|apply IHv, Hin].
    + destruct (call_accessor_other a b w' Hne) as [Hc Hq].
      destruct (IH (snd (call_accessor b w')) v0) as [IHq IHv]; [congruence|].
      split; [congruence|].
      intros v [Heq|Hin]; [congruence|apply IHv, Hin].
Qed.

(** From a state in which [a] has not been called: one query, at the first
    call, and every call returns the value computed then. *)
Lemma accessor_calls_first a evs w :
  cached a w = None ->
  match sys_at_first_call a evs (os w) with
  | Some s1 =>
      queries_of a (snd (accessor_calls evs w)) = (queries_of a w + 1)%nat
      /\ forall v, In (a, v) (fst (accessor_calls evs w)) ->
           v = scaled_ram (fraction a) (AvailableRam s1)
  | None =>
      queries_of a (snd (accessor_calls evs w)) = queries_of a w
      /\ forall v, ~ In (a, v) (fst (accessor_calls evs w))
  end.
Proof.
  revert w. induction evs as [|[f b] evs IH]; intros w Hnone.
  - cbn. tauto.
  - rewrite accessor_calls_cons. cbv zeta. cbn [fst snd sys_at_first_call].
    set (w' := set_os (f (os w)) w).
    assert (Hw' : cached a w' = None) by (destruct a; exact Hnone).
    assert (Hq' : queries_of a w' = queries_of a w) by reflexivity.
    destruct (decide (a = b)) as [<-|Hne].
    + destruct (call_accessor_first a w' Hw') as (Hv & Hc & Hq).
      destruct (accessor_calls_cached a evs _ _ Hc) as [Hq2 Hv2].
      split; [congruence|].
      intros v [Heq|Hin].
      * injection Heq as <-. exact Hv.
      * rewrite (Hv2 v Hin). exact Hv.
    + destruct (call_accessor_other a b w' Hne) as [Hc Hq].
      specialize (IH (snd (call_accessor b w'))).
      rewrite call_accessor_os in IH. change (os w') with (f (os w)) in IH.
      destruct (sys_at_first_call a evs (f (os w))) as [s1|];
        (destruct IH as [IHq IHv]; [congruence|]);
        (split; [congruence|]).
      * intros v [Heq|Hin]; [congruence|apply IHv, Hin].
      * intros v [Heq|Hin]; [congruence|exact (IHv v Hin)].
Qed.

(** The value that an accessor computes, written with the operations of
    binary64 alone: the available memory converted to [double] (rounding to
    nearest even), multiplied by the [double] nearest to 1/10 or to 1/2, and
    truncated to [int64]. *)
Lemma scaled_ram_product a (ram : Z) :
  scaled_ram (fraction a) ram
  = Double.to_int64
      (SpecFloat.SFmul 53 1024
         (SpecFloat.binary_normalize 53 1024 ram 0 false)
         (match a with
          | Large =>
              SpecFloat.SFdiv 53 1024
                (SpecFloat.binary_normalize 53 1024 1 0 false)
                (SpecFloat.binary_normalize 53 1024 10 0 false)
          | Total =>
              SpecFloat.SFdiv 53 1024
                (SpecFloat.binary_normalize 53 1024 1 0 false)
                (SpecFloat.binary_normalize 53 1024 2 0 false)
          end)).
Proof.
  assert (H10 : SpecFloat.SFdiv 53 1024
                  (SpecFloat.binary_normalize 53 1024 1 0 false)
                  (SpecFloat.binary_normalize 53 1024 10 0 false)
                = kLargeAllocationWarningThreshold) by (vm_compute; reflexivity).
  assert (H2 : SpecFloat.SFdiv 53 1024
                 (SpecFloat.binary_normalize 53 1024 1 0 false)
                 (SpecFloat.binary_normalize 53 1024 2 0 false)
               = kTotalAllocationWarningThreshold) by (vm_compute; reflexivity).
  destruct a; cbn [fraction]; rewrite ?H10, ?H2; reflexivity.
Qed.

(** C7. From a process state in which the accessor [a] has not been called,
    along any history of calls of the two accessors between which the
    platform state changes: if [a] is called at all, [port::AvailableRam] is
    asked exactly once on its behalf, at its first call, and every call of
    [a] returns the product of the [ram] read then and of the fraction, 1/10
    for the per-allocation threshold and 1/2 for the cumulative one, computed
    in binary64 and truncated to [int64]; if it is never called, nothing is
    asked. *)
Theorem threshold_computed_once a evs w :
  cached a w = None ->
  match sys_at_first_call a evs (os w) with
  | Some s1 =>
      queries_of a (snd (accessor_calls evs w)) = (queries_of a w + 1)%nat
      /\ forall v, In (a, v) (fst (accessor_calls evs w)) ->
           v = Double.to_int64
                 (SpecFloat.SFmul 53 1024
                    (SpecFloat.binary_normalize 53 1024 (AvailableRam s1) 0 false)
                    (match a with
                     | Large =>
                         SpecFloat.SFdiv 53 1024
                           (SpecFloat.binary_normalize 53 1024 1 0 false)
                           (SpecFloat.binary_normalize 53 1024 10 0 false)
                     | Total =>
                         SpecFloat.SFdiv 53 1024
                           (SpecFloat.binary_normalize 53 1024 1 0 false)
                           (SpecFloat.binary_normalize 53 1024 2 0 false)
                     end))
  | None =>
      queries_of a (snd (accessor_calls evs w)) = queries_of a w
      /\ forall v, ~ In (a, v) (fst (accessor_calls evs w))
  end.
Proof.
  intros Hnone. pose proof (accessor_calls_first a evs w Hnone) as H.
  destruct (sys_at_first_call a evs (os w)) as [s1|]; [|exact H].
  destruct H as [Hq Hv]. split; [exact Hq|].
  intros v Hin. rewrite (Hv v Hin). apply scaled_ram_product.
Qed.

End Thresholds.

(** ** The sub-allocator *)

Section SubAllocator.

Context {P : Port}.

Implicit Types (w : world P) (objs : list EVAllocator) (sub : EVSubAllocator).

Lemma CreateSubAllocator_eq (numa_node : Z) objs :
  CreateSubAllocator numa_node objs
  = ({| ev_allocator_ := length objs |}, objs ++ [EVAllocator_new]).
Proof. reflexivity. Qed.

Lemma Alloc_other alignment num_bytes sub (i : nat) objs w p objs' w' :
  ev_allocator_ sub <> i ->
  Alloc alignment num_bytes sub objs w = Some (p, objs', w') ->
  objs' !! i = objs !! i.
Proof.
  unfold Alloc. intros Hne.
  destruct (objs !! ev_allocator_ sub) as [this|]; [|discriminate].
  destruct (AllocateRaw alignment num_bytes this w) as [[p0 this'] w0].
  intros [= <- <- <-]. apply list_lookup_insert_ne. exact Hne.
Qed.

Lemma Free_other (p : ptr) num_bytes sub (i : nat) objs w objs' w' :
  ev_allocator_ sub <> i ->
  Free p num_bytes sub objs w = Some (objs', w') ->
  objs' !! i = objs !! i.
Proof.
  unfold Free. intros Hne.
  destruct (objs !! ev_allocator_ sub) as [this|]; [|discriminate].
  destruct (DeallocateRaw p this w) as [this' w0].
  intros [= <- <-]. apply list_lookup_insert_ne. exact Hne.
Qed.

(** C8. [Alloc] returns the pointer of [AllocateRaw] on the wrapped
    allocator and leaves that allocator and the process as [AllocateRaw]
    does; [Free] does what [DeallocateRaw] does, for every [num_bytes];
    [CreateSubAllocator] does the same for every [numa_node]; two
    sub-allocators created one after the other wrap two distinct new
    allocators; and [Alloc] and [Free] through one sub-allocator leave the
    allocator of another, its statistics included, as it was. *)
Theorem sub_allocator_delegates :
  (forall alignment num_bytes sub objs w this,
     objs !! ev_allocator_ sub = Some this ->
     Alloc alignment num_bytes sub objs w
     = Some (fst (fst (AllocateRaw alignment num_bytes this w)),
             <[ev_allocator_ sub := snd (fst (AllocateRaw alignment num_bytes this w))]> objs,
             snd (AllocateRaw alignment num_bytes this w)))
  /\ (forall (p : ptr) (num_bytes : Z) sub objs w this,
        objs !! ev_allocator_ sub = Some this ->
        Free p num_bytes sub objs w
        = Some (<[ev_allocator_ sub := fst (DeallocateRaw p this w)]> objs,
                snd (DeallocateRaw p this w)))
  /\ (forall (numa1 numa2 : Z) objs,
        CreateSubAllocator numa1 objs = CreateSubAllocator numa2 objs)
  /\ (forall (numa1 numa2 : Z) objs,
        let c1 := CreateSubAllocator numa1 objs in
        let c2 := CreateSubAllocator numa2 (snd c1) in
        ev_allocator_ (fst c1) <> ev_allocator_ (fst c2)
        /\ snd c2 !! ev_allocator_ (fst c1) = Some EVAllocator_new
        /\ snd c2 !! ev_allocator_ (fst c2) = Some EVAllocator_new)
  /\ (forall sub1 sub2 objs w,
        ev_allocator_ sub1 <> ev_allocator_ sub2 ->
        (forall alignment num_bytes p objs' w',
           Alloc alignment num_bytes sub1 objs w = Some (p, objs', w') ->
           objs' !! ev_allocator_ sub2 = objs !! ev_allocator_ sub2)
        /\ (forall (p : ptr) (num_bytes : Z) objs' w',
              Free p num_bytes sub1 objs w = Some (objs', w') ->
              objs' !! ev_allocator_ sub2 = objs !! ev_allocator_ sub2)).
Proof.
  split; [|split; [|split; [|split]]].
  - intros alignment num_bytes sub objs w this Hthis. unfold Alloc. rewrite Hthis.
    destruct (AllocateRaw alignment num_bytes this w) as [[p this'] w']. reflexivity.
  - intros p num_bytes sub objs w this Hthis. unfold Free. rewrite Hthis.
    destruct (DeallocateRaw p this w) as [this' w']. reflexivity.
  - reflexivity.
  - intros numa1 numa2 objs. cbv zeta. rewrite !CreateSubAllocator_eq.
    cbn [fst snd ev_allocator_]. rewrite length_app. cbn [length].
    split; [lia|]. split.
    + rewrite lookup_app_l by (rewrite length_app; cbn; lia).
      rewrite lookup_app_r by lia. rewrite Nat.sub_diag. reflexivity.
    + rewrite lookup_app_r by (rewrite length_app; cbn; lia).
      rewrite length_app. cbn [length].
      replace (length objs + 1 - (length objs + 1))%nat with 0%nat by lia.
      reflexivity.
  - intros sub1 sub2 objs w Hne. split.
    + intros alignment num_bytes p objs' w'. apply Alloc_other, Hne.
    + intros p num_bytes objs' w'. apply Free_other, Hne.
Qed.

End SubAllocator.

(** ** The properties on the small platform *)

(** The literals are the correctly rounded quotients, and the thresholds of
    a machine with 10000 bytes are 1000 and 5000. *)
Example lit_0_1_rounded :
  Double.div (Double.of_int64 1) (Double.of_int64 10) = Double.lit_0_1.
Proof. vm_compute. reflexivity. Qed.

Example lit_0_5_rounded :
  Double.div (Double.of_int64 1) (Double.of_int64 2) = Double.lit_0_5.
Proof. vm_compute. reflexivity. Qed.

Example scaled_ram_10000 :
  scaled_ram kLargeAllocationWarningThreshold 10000 = 1000
  /\ scaled_ram kTotalAllocationWarningThreshold 10000 = 5000.
Proof. vm_compute. split; reflexivity. Qed.

(** With 16 GiB available, and with [INT64_MAX], which
    [port::AvailableRam] returns when the amount is unknown. *)
Example scaled_ram_16GiB :
  scaled_ram kLargeAllocationWarningThreshold 17179869184 = 1717986918
  /\ scaled_ram kTotalAllocationWarningThreshold 17179869184 = 8589934592.
Proof. vm_compute. split; reflexivity. Qed.

Example scaled_ram_unknown :
  scaled_ram kLargeAllocationWarningThreshold int64_max = 922337203685477632
  /\ scaled_ram kTotalAllocationWarningThreshold int64_max = 4611686018427387904.
Proof. vm_compute. split; reflexivity. Qed.

(** Two blocks allocated, the first one freed: 104 bytes stay in use, the
    usable size of the second block. *)
Lemma bytes_in_use_is_live_sum_witness :
  bytes_in_use
    (stats_ (fst (run [CallAllocateRaw 16 1200; CallAllocateRaw 16 100;
                       CallDeallocateRaw 8] (EVAllocator_new, toy_world0))))
  = sum_sizes
      (os (snd (run [CallAllocateRaw 16 1200; CallAllocateRaw 16 100;
                     CallDeallocateRaw 8] (EVAllocator_new, toy_world0))))
      [1216].
Proof.
  apply (bytes_in_use_is_live_sum toy_world0).
  - reflexivity.
  - pose (r1 := AllocateRaw 16 1200 EVAllocator_new toy_world0).
    pose (r2 := AllocateRaw 16 100 (snd (fst r1)) (snd r1)).
    pose (r3 := DeallocateRaw 8 (snd (fst r2)) (snd r2)).
    assert (H1 : paired_run toy_world0 [8] (snd (fst r1)) (snd r1)).
    { exact (paired_AllocateRaw toy_world0 [] EVAllocator_new toy_world0 16 1200
               8 (snd (fst r1)) (snd r1) (paired_start toy_world0) eq_refl). }
    assert (H2 : paired_run toy_world0 [1216; 8] (snd (fst r2)) (snd r2)).
    { exact (paired_AllocateRaw toy_world0 [8] (snd (fst r1)) (snd r1) 16 100
               1216 (snd (fst r2)) (snd r2) H1 eq_refl). }
    exact (paired_DeallocateRaw toy_world0 [1216; 8] (snd (fst r2)) (snd r2) 8
             (fst r3) (snd r3) H2 (or_introl (or_intror (or_introl eq_refl)))
             eq_refl).
  - vm_compute. discriminate.
Defined.

(** Freeing the one block of an allocator keeps the peak above the bytes in
    use. *)
Lemma peak_bytes_invariant_witness :
  peak_ok
    (stats_ (fst (step (CallDeallocateRaw 8)
                    (snd (fst (AllocateRaw 16 1200 EVAllocator_new toy_world0)),
                     snd (AllocateRaw 16 1200 EVAllocator_new toy_world0))))).
Proof.
  apply (proj2 (@peak_bytes_invariant toy_port toy_port_spec)).
  - vm_compute. discriminate.
  - intros _. vm_compute. discriminate.
Defined.

(** Seven requests above the threshold: five warnings. *)
Lemma single_allocation_warnings_capped_witness :
  single_warnings (log (snd (run (toy_requests 7) (EVAllocator_new, toy_world0))))
  = single_warnings (log toy_world0) + 5.
Proof.
  assert (HT : large_value (snd (run (toy_requests 7) (EVAllocator_new, toy_world0)))
               = Some 1000) by (vm_compute; reflexivity).
  destruct (single_allocation_warnings_capped toy_world0 (toy_requests 7) 1000 HT)
    as (_ & Hmore & _).
  apply Hmore. vm_compute. reflexivity.
Defined.

(** With the thresholds 1000 and 5000, the fifth block of 1200 bytes takes
    the bytes in use from 4800 to 6000: it logs the cumulative warning. *)
Lemma total_allocation_warning_once_witness :
  total_warnings
    (log (snd (step (CallAllocateRaw 16 1200)
                 (run (toy_requests 4) (EVAllocator_new, toy_world_cached)))))
  = total_warnings
      (log (snd (run (toy_requests 4) (EVAllocator_new, toy_world_cached)))) + 1.
Proof.
  exact (proj1 (total_allocation_warning_once toy_world_cached (toy_requests 4)
                  (CallAllocateRaw 16 1200) 5000 eq_refl eq_refl)).
Defined.

(** Both accessors on several machines, the free memory changing between
    the calls: one query each, and every call returns the tenth, or the half,
    of the memory that was free at the first call, truncated toward zero:
    1000 and 4400 for 10000 and 8800 bytes, 1717986918 and 8589934592 for
    16 GiB, 0 and 1 for 3 bytes, 0 and -1 for -3, and the values of
    [INT64_MAX]. *)
Lemma threshold_computed_once_witness :
  (queries_of Large (snd (accessor_calls toy_history (world_start (toy_sys0 : sys toy_port))))
   = 1%nat
   /\ forall v,
        In (Large, v)
          (fst (accessor_calls toy_history (world_start (toy_sys0 : sys toy_port)))) ->
        v = 1000)
  /\ (queries_of Total (snd (accessor_calls toy_history (world_start (toy_sys0 : sys toy_port))))
      = 1%nat
      /\ forall v,
           In (Total, v)
             (fst (accessor_calls toy_history (world_start (toy_sys0 : sys toy_port)))) ->
           v = 4400)
  /\ (forall v,
        In (Large, v)
          (fst (accessor_calls (toy_history_at 17179869184 Large)
                  (world_start (toy_sys0 : sys toy_port)))) ->
        v = 1717986918)
  /\ (forall v,
        In (Total, v)
          (fst (accessor_calls (toy_history_at 17179869184 Total)
                  (world_start (toy_sys0 : sys toy_port)))) ->
        v = 8589934592)
  /\ (forall v,
        In (Large, v)
          (fst (accessor_calls (toy_history_at 3 Large)
                  (world_start (toy_sys0 : sys toy_port)))) ->
        v = 0)
  /\ (forall v,
        In (Total, v)
          (fst (accessor_calls (toy_history_at 3 Total)
                  (world_start (toy_sys0 : sys toy_port)))) ->
        v = 1)
  /\ (forall v,
        In (Large, v)
          (fst (accessor_calls (toy_history_at (-3) Large)
                  (world_start (toy_sys0 : sys toy_port)))) ->
        v = 0)
  /\ (forall v,
        In (Total, v)
          (fst (accessor_calls (toy_history_at (-3) Total)
                  (world_start (toy_sys0 : sys toy_port)))) ->
        v = -1)
  /\ (forall v,
        In (Large, v)
          (fst (accessor_calls (toy_history_at int64_max Large)
                  (world_start (toy_sys0 : sys toy_port)))) ->
        v = 922337203685477632)
  /\ (forall v,
        In (Total, v)
          (fst (accessor_calls (toy_history_at int64_max Total)
                  (world_start (toy_sys0 : sys toy_port)))) ->
        v = 4611686018427387904).
Proof.
  split; [exact (threshold_computed_once Large toy_history
                   (world_start (toy_sys0 : sys toy_port)) eq_refl)|].
  split; [exact (threshold_computed_once Total toy_history
                   (world_start (toy_sys0 : sys toy_port)) eq_refl)|].
  split; [exact (proj2 (threshold_computed_once Large (toy_history_at 17179869184 Large)
                          (world_start (toy_sys0 : sys toy_port)) eq_refl))|].
  split; [exact (proj2 (threshold_computed_once Total (toy_history_at 17179869184 Total)
                          (world_start (toy_sys0 : sys toy_port)) eq_refl))|].
  split; [exact (proj2 (threshold_computed_once Large (toy_history_at 3 Large)
                          (world_start (toy_sys0 : sys toy_port)) eq_refl))|].
  split; [exact (proj2 (threshold_computed_once Total (toy_history_at 3 Total)
                          (world_start (toy_sys0 : sys toy_port)) eq_refl))|].
  split; [exact (proj2 (threshold_computed_once Large (toy_history_at (-3) Large)
                          (world_start (toy_sys0 : sys toy_port)) eq_refl))|].
  split; [exact (proj2 (threshold_computed_once Total (toy_history_at (-3) Total)
                          (world_start (toy_sys0 : sys toy_port)) eq_refl))|].
  split; [exact (proj2 (threshold_computed_once Large (toy_history_at int64_max Large)
                          (world_start (toy_sys0 : sys toy_port)) eq_refl))|].
  exact (proj2 (threshold_computed_once Total (toy_history_at int64_max Total)
                  (world_start (toy_sys0 : sys toy_port)) eq_refl)).
Defined.

(** Two sub-allocators, for the nodes 3 and 7; an allocation through the
    first leaves the allocator of the second new. *)
Lemma sub_allocator_delegates_witness :
  let c1 := CreateSubAllocator 3 [] in
  let c2 := CreateSubAllocator 7 (snd c1) in
  let r := AllocateRaw 16 1200 EVAllocator_new toy_world0 in
  Alloc 16 1200 (fst c1) (snd c2) toy_world0
  = Some (fst (fst r), <[ev_allocator_ (fst c1) := snd (fst r)]> (snd c2), snd r)
  /\ <[ev_allocator_ (fst c1) := snd (fst r)]> (snd c2) !! ev_allocator_ (fst c2)
     = Some EVAllocator_new.
Proof.
  cbv zeta.
  destruct (@sub_allocator_delegates toy_port) as (HAlloc & _ & _ & _ & Hother).
  pose proof (HAlloc 16 1200 (fst (CreateSubAllocator 3 []))
                (snd (CreateSubAllocator 7 (snd (CreateSubAllocator 3 []))))
                toy_world0 EVAllocator_new eq_refl) as H1.
  split; [exact H1|].
  destruct (Hother (fst (CreateSubAllocator 3 []))
              (fst (CreateSubAllocator 7 (snd (CreateSubAllocator 3 []))))
              (snd (CreateSubAllocator 7 (snd (CreateSubAllocator 3 []))))
              toy_world0) as [H2 _].
  - cbn. lia.
  - rewrite (H2 16 1200 _ _ _ H1). reflexivity.
Defined.

(** A request of 20000 bytes on the small platform, which has 10000: the
    primitive fails, the pointer is null and the call is counted. *)
Lemma AllocateRaw_counts_failures_witness :
  fst (fst (AllocateRaw 16 20000 EVAllocator_new toy_world0)) = nullptr
  /\ num_allocs (stats_ (snd (fst (AllocateRaw 16 20000 EVAllocator_new toy_world0))))
     = 0 + 1
  /\ snd (fst (AllocateRaw 16 20000 EVAllocator_new toy_world0)) <> EVAllocator_new.
Proof.
  split; [reflexivity|].
  apply (AllocateRaw_counts_failures 16 20000 EVAllocator_new toy_world0).
  - reflexivity.
  - vm_compute. split; [discriminate|reflexivity].
Defined.

(** * Further properties *)

(** ** Statistics switched off *)

Section Disabled.

Context {P : Port}.

Implicit Types (this : EVAllocator) (w : world P) (st : EVAllocator * world P).

(** One allocation without statistics: the cumulative side is not
    touched. *)
Lemma AllocateRaw_off alignment num_bytes this w :
  ev_allocator_collect_stats w = false ->
  let r := AllocateRaw alignment num_bytes this w in
  stats_ (snd (fst r)) = stats_ this
  /\ total_allocation_warning_count_ (snd (fst r))
     = total_allocation_warning_count_ this
  /\ total_value (snd r) = total_value w
  /\ queries_of Total (snd r) = queries_of Total w
  /\ total_warnings (log (snd r)) = total_warnings (log w).
Proof.
  intros Hflag. cbv zeta. rewrite AllocateRaw_unfold. cbv zeta. rewrite Hflag.
  destruct (Large_frame w) as (_ & _ & Htot & Hlog & _).
  destruct (call_accessor_other Total Large w ltac:(discriminate)) as [_ Hq].
  cbn [call_accessor] in Hq.
  set (warn1 := exceeds_large _ _ && _). clearbody warn1.
  cbn [fst snd stats_ total_allocation_warning_count_].
  destruct warn1; cbn [set_os LOG total_value log];
    unfold queries_of in *; cbn [set_os LOG ram_queries];
    rewrite ?total_warnings_snoc, Htot, Hlog, Hq; cbn [is_total];
    repeat split; lia.
Qed.

(** X1. Statistics being off, no sequence of calls changes [bytes_in_use], the
    cumulative counter, the cumulative threshold cache, the number of
    queries made for it or the number of cumulative warnings; and the whole
    statistics record stays as it is unless [ClearStats] is called. *)
Theorem statistics_off_run (cs : list call) st :
  ev_allocator_collect_stats (snd st) = false ->
  bytes_in_use (stats_ (fst (run cs st))) = bytes_in_use (stats_ (fst st))
  /\ total_allocation_warning_count_ (fst (run cs st))
     = total_allocation_warning_count_ (fst st)
  /\ total_value (snd (run cs st)) = total_value (snd st)
  /\ queries_of Total (snd (run cs st)) = queries_of Total (snd st)
  /\ total_warnings (log (snd (run cs st))) = total_warnings (log (snd st))
  /\ (no_ClearStats cs = true -> stats_ (fst (run cs st)) = stats_ (fst st)).
Proof.
  revert st. induction cs as [|c cs IH]; intros st Hflag; cbn [run].
  - repeat split.
  - specialize (IH (step c st)). rewrite step_flag in IH. specialize (IH Hflag).
    destruct IH as (IH1 & IH2 & IH3 & IH4 & IH5 & IH6).
    assert (Hstep :
      bytes_in_use (stats_ (fst (step c st))) = bytes_in_use (stats_ (fst st))
      /\ total_allocation_warning_count_ (fst (step c st))
         = total_allocation_warning_count_ (fst st)
      /\ total_value (snd (step c st)) = total_value (snd st)
      /\ queries_of Total (snd (step c st)) = queries_of Total (snd st)
      /\ total_warnings (log (snd (step c st))) = total_warnings (log (snd st))
      /\ (is_ClearStats c = false -> stats_ (fst (step c st)) = stats_ (fst st))).
    { destruct c as [alignment num_bytes|p| |].
      - rewrite step_AllocateRaw. cbn [fst snd].
        destruct (AllocateRaw_off alignment num_bytes (fst st) (snd st) Hflag)
          as (H1 & H2 & H3 & H4 & H5).
        rewrite H1. repeat split; assumption.
      - cbn [step]. unfold DeallocateRaw. rewrite Hflag. repeat split.
      - repeat split.
      - cbn [step fst snd]. repeat split. discriminate. }
    destruct Hstep as (H1 & H2 & H3 & H4 & H5 & H6).
    repeat split; try congruence.
    cbn [no_ClearStats forallb]. intros Hno.
    apply andb_true_iff in Hno. destruct Hno as [Hc Hcs].
    rewrite (IH6 Hcs). apply H6. apply negb_true_iff. exact Hc.
Qed.

End Disabled.

(** ** The counters count the warnings *)

Section Counters.

Context {P : Port}.

Implicit Types (this : EVAllocator) (w : world P) (st : EVAllocator * world P).

(** A call adds to each counter what it adds to the log, one at most, and
    only below the cap. *)
Lemma step_counters (c : call) st :
  exists d1 d2 : Z,
    (d1 = 0 \/ d1 = 1 /\ single_allocation_warning_count_ (fst st)
                         < kMaxSingleAllocationWarnings)
    /\ (d2 = 0 \/ d2 = 1 /\ total_allocation_warning_count_ (fst st)
                            < kMaxTotalAllocationWarnings)
    /\ single_allocation_warning_count_ (fst (step c st))
       = single_allocation_warning_count_ (fst st) + d1
    /\ single_warnings (log (snd (step c st)))
       = single_warnings (log (snd st)) + d1
    /\ total_allocation_warning_count_ (fst (step c st))
       = total_allocation_warning_count_ (fst st) + d2
    /\ total_warnings (log (snd (step c st)))
       = total_warnings (log (snd st)) + d2.
Proof.
  destruct c as [alignment num_bytes|p| |].
  - rewrite step_AllocateRaw. cbn [fst snd].
    destruct (AllocateRaw_single alignment num_bytes (fst st) (snd st) _
                (AllocateRaw_large_value alignment num_bytes (fst st) (snd st)))
      as [Hs1 Hs2].
    set (b1 := exceeds_large _ _ && _) in Hs1, Hs2.
    assert (Hd1 : (if b1 then 1 else 0) = 0
                  \/ (if b1 then 1 else 0) = 1
                     /\ single_allocation_warning_count_ (fst st)
                        < kMaxSingleAllocationWarnings).
    { subst b1. destruct (exceeds_large _ _); cbn [andb]; [|left; reflexivity].
      destruct (Z.ltb_spec (single_allocation_warning_count_ (fst st))
                  kMaxSingleAllocationWarnings); [right|left]; auto. }
    destruct (ev_allocator_collect_stats (snd st)) eqn:Hflag.
    + destruct (AllocateRaw_total_value alignment num_bytes (fst st) (snd st) Hflag)
        as [T HT].
      destruct (AllocateRaw_total alignment num_bytes (fst st) (snd st) T Hflag HT)
        as [Ht1 Ht2].
      set (b2 := (T <? _) && _) in Ht1, Ht2.
      exists (if b1 then 1 else 0), (if b2 then 1 else 0).
      split; [exact Hd1|]. split; [|auto].
      subst b2. destruct (T <? _); cbn [andb]; [|left; reflexivity].
      destruct (Z.ltb_spec (total_allocation_warning_count_ (fst st))
                  kMaxTotalAllocationWarnings); [right|left]; auto.
    + destruct (AllocateRaw_off alignment num_bytes (fst st) (snd st) Hflag)
        as (_ & Ht1 & _ & _ & Ht2).
      exists (if b1 then 1 else 0), 0.
      split; [exact Hd1|]. split; [left; reflexivity|].
      rewrite Ht1, Ht2, !Z.add_0_r. auto.
  - destruct (step_other_counters (CallDeallocateRaw p) st) as (H1 & H2 & H3);
      [discriminate|].
    exists 0, 0. rewrite H1, H2, H3, !Z.add_0_r. auto 8.
  - exists 0, 0. cbn [step]. rewrite !Z.add_0_r. auto 8.
  - exists 0, 0. cbn. rewrite !Z.add_0_r. auto 8.
Qed.

(** X2. For a new allocator and any sequence of calls, statistics collected or
    not: each warning counter is the number of warnings of its kind logged
    since the allocator was created, and it never leaves [0..5] (single
    allocations) or [0..1] (cumulative usage). *)
Theorem counters_count_warnings (cs : list call) w :
  let st := run cs (EVAllocator_new, w) in
  single_allocation_warning_count_ (fst st)
  = single_warnings (log (snd st)) - single_warnings (log w)
  /\ 0 <= single_allocation_warning_count_ (fst st) <= kMaxSingleAllocationWarnings
  /\ total_allocation_warning_count_ (fst st)
     = total_warnings (log (snd st)) - total_warnings (log w)
  /\ 0 <= total_allocation_warning_count_ (fst st) <= kMaxTotalAllocationWarnings.
Proof.
  cbv zeta.
  assert (Hgen : forall cs st (s0 t0 : Z),
    single_allocation_warning_count_ (fst st) = single_warnings (log (snd st)) - s0 ->
    0 <= single_allocation_warning_count_ (fst st) <= kMaxSingleAllocationWarnings ->
    total_allocation_warning_count_ (fst st) = total_warnings (log (snd st)) - t0 ->
    0 <= total_allocation_warning_count_ (fst st) <= kMaxTotalAllocationWarnings ->
    single_allocation_warning_count_ (fst (run cs st))
    = single_warnings (log (snd (run cs st))) - s0
    /\ 0 <= single_allocation_warning_count_ (fst (run cs st))
       <= kMaxSingleAllocationWarnings
    /\ total_allocation_warning_count_ (fst (run cs st))
       = total_warnings (log (snd (run cs st))) - t0
    /\ 0 <= total_allocation_warning_count_ (fst (run cs st))
       <= kMaxTotalAllocationWarnings).
  { clear cs w. induction cs as [|c cs IH]; intros st s0 t0 H1 H2 H3 H4; cbn [run].
    - auto.
    - destruct (step_counters c st) as (d1 & d2 & Hd1 & Hd2 & E1 & E2 & E3 & E4).
      apply IH; lia. }
  apply Hgen; cbn [fst snd EVAllocator_new single_allocation_warning_count_
                   total_allocation_warning_count_];
    unfold kMaxSingleAllocationWarnings, kMaxTotalAllocationWarnings; lia.
Qed.

End Counters.

(** ** What the statistics record *)

Section Statistics.

Context {P : Port}.

Implicit Types (this : EVAllocator) (w : world P) (st : EVAllocator * world P).

Lemma to_int64_idem (z : Z) : to_int64 (to_int64 z) = to_int64 z.
Proof.
  pose proof (to_int64_add_l z 0) as H. rewrite !Z.add_0_r in H. exact H.
Qed.

Lemma allocs_since_clear_nonneg (cs : list call) :
  forall n, 0 <= n -> 0 <= allocs_since_clear cs n.
Proof.
  induction cs as [|c cs IH]; intros n Hn; cbn [allocs_since_clear]; [exact Hn|].
  destruct c; apply IH; lia.
Qed.

Lemma run_num_allocs (cs : list call) :
  forall st (n : Z),
    ev_allocator_collect_stats (snd st) = true ->
    num_allocs (stats_ (fst st)) = to_int64 n ->
    num_allocs (stats_ (fst (run cs st))) = to_int64 (allocs_since_clear cs n).
Proof.
  induction cs as [|c cs IH]; intros st n Hflag Hn; cbn [run allocs_since_clear];
    [exact Hn|].
  destruct c as [alignment num_bytes|p| |].
  - apply IH; [rewrite step_flag; exact Hflag|].
    rewrite step_AllocateRaw. cbn [fst snd].
    rewrite AllocateRaw_stats by exact Hflag. cbn [num_allocs].
    rewrite Hn. apply to_int64_add_l.
  - apply IH; [exact Hflag|].
    cbn [step]. unfold DeallocateRaw. rewrite Hflag. exact Hn.
  - apply IH; assumption.
  - apply IH; [exact Hflag|]. reflexivity.
Qed.

(** X3. Statistics being collected, for a new allocator and any sequence of
    calls, [num_allocs] is the number of calls of [AllocateRaw] made since
    the last [ClearStats] (since the creation if there was none), failed
    allocations included, as an [int64]; deallocations and snapshots do not
    count. *)
Theorem num_allocs_counts_calls (cs : list call) w :
  ev_allocator_collect_stats w = true ->
  num_allocs (stats_ (fst (run cs (EVAllocator_new, w))))
  = to_int64 (allocs_since_clear cs 0)
  /\ (allocs_since_clear cs 0 <= int64_max ->
      num_allocs (stats_ (fst (run cs (EVAllocator_new, w))))
      = allocs_since_clear cs 0).
Proof.
  intros Hflag.
  pose proof (run_num_allocs cs (EVAllocator_new, w) 0 Hflag eq_refl) as H.
  split; [exact H|]. intros Hfit. rewrite H. apply to_int64_id.
  pose proof (allocs_since_clear_nonneg cs 0 ltac:(lia)).
  unfold int64_min. lia.
Qed.

(** X4. Statistics being collected, an allocation followed at once by the
    deallocation of the pointer it returned (null included) brings
    [bytes_in_use] back to what it was, keeps the call counted, and leaves
    in [peak_bytes_in_use] the usage reached in between; the size added is
    the one [AllocatedSizeSlow] reports for the pointer. *)
Theorem AllocateRaw_DeallocateRaw_round_trip alignment num_bytes this w :
  ev_allocator_collect_stats w = true ->
  int64_min <= bytes_in_use (stats_ this) <= int64_max ->
  let r := AllocateRaw alignment num_bytes this w in
  let p := fst (fst r) in
  let r' := DeallocateRaw p (snd (fst r)) (snd r) in
  bytes_in_use (stats_ (snd (fst r)))
  = to_int64 (bytes_in_use (stats_ this) + AllocatedSizeSlow p (snd r))
  /\ bytes_in_use (stats_ (fst r')) = bytes_in_use (stats_ this)
  /\ num_allocs (stats_ (fst r')) = to_int64 (num_allocs (stats_ this) + 1)
  /\ peak_bytes_in_use (stats_ (fst r'))
     = Z.max (peak_bytes_in_use (stats_ this))
             (to_int64 (bytes_in_use (stats_ this) + AllocatedSizeSlow p (snd r)))
  /\ os (snd r') = AlignedFree p (snd (AlignedMalloc num_bytes 8 (os w))).
Proof.
  intros Hflag Hrange. cbv zeta. unfold AllocatedSizeSlow, DeallocateRaw.
  rewrite AllocateRaw_flag, Hflag, AllocateRaw_os, AllocateRaw_ptr.
  cbn [fst snd stats_ bytes_in_use num_allocs peak_bytes_in_use set_os os].
  rewrite AllocateRaw_stats by exact Hflag.
  cbn [bytes_in_use num_allocs peak_bytes_in_use].
  rewrite to_int64_sub_l.
  repeat split.
  rewrite <- (to_int64_id (bytes_in_use (stats_ this)) Hrange) at 2.
  f_equal. lia.
Qed.

(** Without [ClearStats] the peak and the largest size only go up. *)
Lemma run_peak_largest_mono (cs : list call) :
  forall st,
    no_ClearStats cs = true ->
    peak_bytes_in_use (stats_ (fst st)) <= peak_bytes_in_use (stats_ (fst (run cs st)))
    /\ largest_alloc_size (stats_ (fst st))
       <= largest_alloc_size (stats_ (fst (run cs st))).
Proof.
  induction cs as [|c cs IH]; intros st Hno; cbn [run]; [lia|].
  cbn [no_ClearStats forallb] in Hno. apply andb_true_iff in Hno.
  destruct Hno as [Hc Hcs]. destruct (IH (step c st) Hcs) as [IH1 IH2].
  assert (Hstep :
    peak_bytes_in_use (stats_ (fst st)) <= peak_bytes_in_use (stats_ (fst (step c st)))
    /\ largest_alloc_size (stats_ (fst st))
       <= largest_alloc_size (stats_ (fst (step c st)))).
  { destruct c as [alignment num_bytes|p| |].
    - rewrite step_AllocateRaw. cbn [fst snd].
      destruct (ev_allocator_collect_stats (snd st)) eqn:Hflag.
      + rewrite AllocateRaw_stats by exact Hflag.
        cbn [peak_bytes_in_use largest_alloc_size]. lia.
      + rewrite AllocateRaw_stats_off by exact Hflag. lia.
    - cbn [step]. unfold DeallocateRaw.
      destruct (ev_allocator_collect_stats (snd st)); cbn [fst stats_
        peak_bytes_in_use largest_alloc_size]; split; apply Z.le_refl.
    - split; apply Z.le_refl.
    - discriminate Hc. }
  lia.
Qed.

(** X5. Statistics being collected, as long as [ClearStats] is not called,
    [peak_bytes_in_use] stays at or above the [bytes_in_use] that any earlier
    allocation reached, and [largest_alloc_size] at or above the size, as an
    [int64], that [AllocatedSizeSlow] reported for the block of any earlier
    allocation, whatever calls follow it. *)
Theorem peak_and_largest_bound_history alignment num_bytes (cs : list call) st :
  ev_allocator_collect_stats (snd st) = true ->
  no_ClearStats cs = true ->
  let r := AllocateRaw alignment num_bytes (fst st) (snd st) in
  let final := run (CallAllocateRaw alignment num_bytes :: cs) st in
  bytes_in_use (stats_ (snd (fst r))) <= peak_bytes_in_use (stats_ (fst final))
  /\ to_int64 (AllocatedSizeSlow (fst (fst r)) (snd r))
     <= largest_alloc_size (stats_ (fst final))
  /\ peak_bytes_in_use (stats_ (fst st)) <= peak_bytes_in_use (stats_ (fst final))
  /\ largest_alloc_size (stats_ (fst st)) <= largest_alloc_size (stats_ (fst final)).
Proof.
  intros Hflag Hno. cbv zeta. cbn [run].
  destruct (run_peak_largest_mono cs (step (CallAllocateRaw alignment num_bytes) st) Hno)
    as [Hp Hl].
  revert Hp Hl. rewrite step_AllocateRaw. cbn [fst snd].
  unfold AllocatedSizeSlow. rewrite AllocateRaw_os, AllocateRaw_ptr.
  rewrite AllocateRaw_stats by exact Hflag.
  cbn [bytes_in_use peak_bytes_in_use largest_alloc_size]. lia.
Qed.

(** For a new allocator [largest_alloc_size] is never negative. *)
Lemma run_largest_nonneg (cs : list call) :
  forall st,
    0 <= largest_alloc_size (stats_ (fst st)) ->
    0 <= largest_alloc_size (stats_ (fst (run cs st))).
Proof.
  induction cs as [|c cs IH]; intros st H0; cbn [run]; [exact H0|].
  apply IH. destruct c as [alignment num_bytes|p| |].
  - rewrite step_AllocateRaw. cbn [fst snd].
    destruct (ev_allocator_collect_stats (snd st)) eqn:Hflag.
    + rewrite AllocateRaw_stats by exact Hflag. cbn [largest_alloc_size]. lia.
    + rewrite AllocateRaw_stats_off by exact Hflag. exact H0.
  - cbn [step]. unfold DeallocateRaw.
    destruct (ev_allocator_collect_stats (snd st)); cbn; exact H0.
  - exact H0.
  - cbn. lia.
Qed.

End Statistics.

(** ** The thresholds as the allocator uses them *)

Section Caches.

Context {P : Port}.

Implicit Types (this : EVAllocator) (w : world P) (st : EVAllocator * world P)
  (a b : accessor).

Lemma cache_consistent_call b w :
  cache_consistent w -> cache_consistent (snd (call_accessor b w)).
Proof.
  intros H a. specialize (H a). destruct (decide (a = b)) as [<-|Hne].
  - destruct (cached a w) as [v|] eqn:Hc.
    + rewrite (call_accessor_cached a w v Hc). cbn [snd]. rewrite Hc. exact H.
    + destruct (call_accessor_first a w Hc) as (_ & -> & ->). lia.
  - destruct (call_accessor_other a b w Hne) as [-> ->]. exact H.
Qed.

Lemma cache_consistent_LOG (m : warning) w :
  cache_consistent w -> cache_consistent (LOG m w).
Proof. intros H a. specialize (H a). destruct a; exact H. Qed.

Lemma cache_consistent_set_os (s : sys P) w :
  cache_consistent w -> cache_consistent (set_os s w).
Proof. intros H a. specialize (H a). destruct a; exact H. Qed.

Lemma cache_consistent_start (s : sys P) : cache_consistent (world_start s).
Proof. intros []; reflexivity. Qed.

Lemma AllocateRaw_cache_consistent alignment num_bytes this w :
  cache_consistent w ->
  cache_consistent (snd (AllocateRaw alignment num_bytes this w)).
Proof.
  intros H. rewrite AllocateRaw_unfold. cbv zeta.
  set (warn1 := exceeds_large _ _ && _). clearbody warn1.
  assert (H3 : forall s : sys P,
             cache_consistent
               (set_os s (if warn1
                          then LOG (SingleAllocationWarning num_bytes)
                                 (snd (LargeAllocationWarningBytes w))
                          else snd (LargeAllocationWarningBytes w)))).
  { intros s. apply cache_consistent_set_os.
    destruct warn1; [apply cache_consistent_LOG|];
      apply (cache_consistent_call Large), H. }
  destruct (ev_allocator_collect_stats w); cbn [snd]; [|apply H3].
  match goal with
  | |- context [if ?b then LOG (TotalAllocationWarning _) _ else _] => destruct b
  end; [apply cache_consistent_LOG|]; apply (cache_consistent_call Total), H3.
Qed.

Lemma step_cache_consistent (c : call) st :
  cache_consistent (snd st) -> cache_consistent (snd (step c st)).
Proof.
  intros H. destruct c as [alignment num_bytes|p| |].
  - rewrite step_AllocateRaw. cbn [snd]. apply AllocateRaw_cache_consistent, H.
  - cbn [step]. unfold DeallocateRaw. cbn [snd]. apply cache_consistent_set_os, H.
  - exact H.
  - exact H.
Qed.

Lemma step_cached (c : call) st a (v : Z) :
  cached a (snd st) = Some v -> cached a (snd (step c st)) = Some v.
Proof. destruct a; [apply step_large_value|apply step_total_value]. Qed.

(** X6. Through any sequence of calls on an allocator, in a process whose record
    of queries agrees with the caches (a new process does): each accessor
    has asked [port::AvailableRam] once at most, and a threshold that was
    cached before the calls is the same after them, with no further
    query, whatever the allocations and deallocations did to the memory. *)
Theorem run_asks_each_threshold_once (cs : list call) st a :
  cache_consistent (snd st) ->
  (queries_of a (snd (run cs st)) <= 1)%nat
  /\ cache_consistent (snd (run cs st))
  /\ forall v : Z,
       cached a (snd st) = Some v ->
       cached a (snd (run cs st)) = Some v
       /\ queries_of a (snd (run cs st)) = queries_of a (snd st).
Proof.
  intros H.
  assert (Hrun : forall cs st, cache_consistent (snd st) ->
                   cache_consistent (snd (run cs st))).
  { clear. induction cs as [|c cs IH]; intros st H; cbn [run]; [exact H|].
    apply IH, step_cache_consistent, H. }
  assert (Hkeep : forall cs st (v : Z), cached a (snd st) = Some v ->
                    cached a (snd (run cs st)) = Some v).
  { clear. induction cs as [|c cs IH]; intros st v Hv; cbn [run]; [exact Hv|].
    apply IH, step_cached, Hv. }
  pose proof (Hrun cs st H) as Hfin.
  split; [|split; [exact Hfin|]].
  - rewrite (Hfin a). destruct (cached a (snd (run cs st))); lia.
  - intros v Hv. split; [apply Hkeep, Hv|].
    rewrite (Hfin a), (H a), (Hkeep cs st v Hv), Hv. reflexivity.
Qed.

(** X7. The first allocation of a process that collects statistics computes
    both thresholds, in this order: the per-allocation one from the memory
    available before the block is allocated, the cumulative one from the
    memory available after. *)
Theorem first_AllocateRaw_thresholds alignment num_bytes this w :
  ev_allocator_collect_stats w = true ->
  large_value w = None ->
  total_value w = None ->
  let r := AllocateRaw alignment num_bytes this w in
  large_value (snd r)
  = Some (scaled_ram kLargeAllocationWarningThreshold (AvailableRam (os w)))
  /\ total_value (snd r)
     = Some (scaled_ram kTotalAllocationWarningThreshold
               (AvailableRam (snd (AlignedMalloc num_bytes 8 (os w)))))
  /\ ram_queries (snd r) = ram_queries w ++ [Large; Total].
Proof.
  intros Hflag Hl Ht. cbv zeta.
  unfold AllocateRaw, LargeAllocationWarningBytes, TotalAllocationWarningBytes,
    LOG, set_os.
  rewrite Hl.
  set (warn1 := exceeds_large _ _ && _). clearbody warn1.
  destruct (AlignedMalloc num_bytes 8 (os w)) as [p s] eqn:Hmalloc.
  destruct warn1; cbn; rewrite Hmalloc; cbn; rewrite Hflag, Ht; cbn;
    match goal with
    | |- context [if ?b then _ else _] => destruct b
    end;
    cbn; rewrite <- ?app_assoc; repeat split.
Qed.

(** X8. The comparison with the per-allocation threshold is unsigned: a request
    of 0 bytes never logs the single-allocation warning, and when the cached
    threshold is a negative [int64] no request of at most [INT64_MAX] bytes
    does. *)
Theorem AllocateRaw_unsigned_threshold alignment num_bytes this w :
  num_bytes = 0
  \/ (exists T, large_value w = Some T /\ int64_min <= T < 0)
     /\ 0 <= num_bytes <= int64_max ->
  single_allocation_warning_count_ (snd (fst (AllocateRaw alignment num_bytes this w)))
  = single_allocation_warning_count_ this
  /\ single_warnings (log (snd (AllocateRaw alignment num_bytes this w)))
     = single_warnings (log w).
Proof.
  intros Hcase.
  destruct (AllocateRaw_single alignment num_bytes this w _
              (AllocateRaw_large_value alignment num_bytes this w)) as [-> ->].
  replace (exceeds_large num_bytes (fst (LargeAllocationWarningBytes w))) with false;
    [cbn [andb]; lia|].
  symmetry. unfold exceeds_large, to_uint64. apply Z.ltb_ge.
  destruct Hcase as [->|[(T & HT & Hneg) Hn]].
  - apply Z.mod_pos_bound. lia.
  - rewrite (Large_cached w T HT). cbn [fst].
    unfold int64_min, int64_max in *.
    replace (T mod 2 ^ 64) with (T + 2 ^ 64); [lia|].
    apply Z.mod_unique with (q := -1); lia.
Qed.

End Caches.

(** ** Calls that are not allocations *)

Section Quiet.

Context {P : Port}.

Implicit Types (this : EVAllocator) (w : world P) (st : EVAllocator * world P).

(** X9. [DeallocateRaw], [GetStats] and [ClearStats] never log, never change a
    warning counter, and never compute or change a threshold: a sequence of
    calls without [AllocateRaw] leaves the log, the two counters, the two
    caches and the record of the queries as they were. *)
Theorem run_without_AllocateRaw (cs : list call) st :
  no_AllocateRaw cs = true ->
  log (snd (run cs st)) = log (snd st)
  /\ single_allocation_warning_count_ (fst (run cs st))
     = single_allocation_warning_count_ (fst st)
  /\ total_allocation_warning_count_ (fst (run cs st))
     = total_allocation_warning_count_ (fst st)
  /\ large_value (snd (run cs st)) = large_value (snd st)
  /\ total_value (snd (run cs st)) = total_value (snd st)
  /\ ram_queries (snd (run cs st)) = ram_queries (snd st).
Proof.
  revert st. induction cs as [|c cs IH]; intros st Hno; cbn [run]; [repeat split|].
  cbn [no_AllocateRaw forallb] in Hno. apply andb_true_iff in Hno.
  destruct Hno as [Hc Hcs].
  destruct (IH (step c st) Hcs) as (-> & -> & -> & -> & -> & ->).
  destruct c as [alignment num_bytes|p| |]; [discriminate Hc| | |].
  - cbn [step]. unfold DeallocateRaw.
    destruct (ev_allocator_collect_stats (snd st)); repeat split.
  - repeat split.
  - repeat split.
Qed.

End Quiet.

(** ** The objects of the factory *)

Section Objects.

Context {P : Port}.

Implicit Types (w : world P) (objs : list EVAllocator) (sub : EVSubAllocator).

(** X10. [CreateAllocator] is [CreateEVAllocator]; it and [CreateSubAllocator]
    put a new allocator at a place that was free and leave every allocator
    already created as it is; and [Alloc] and [Free] through a sub-allocator
    whose allocator exists succeed and keep every place of the store, so
    that the sub-allocator can be used again. *)
Theorem factory_keeps_objects objs (numa_node : Z) :
  CreateAllocator objs = CreateEVAllocator objs
  /\ objs !! fst (CreateAllocator objs) = None
  /\ snd (CreateAllocator objs) !! fst (CreateAllocator objs) = Some EVAllocator_new
  /\ objs !! ev_allocator_ (fst (CreateSubAllocator numa_node objs)) = None
  /\ snd (CreateSubAllocator numa_node objs)
       !! ev_allocator_ (fst (CreateSubAllocator numa_node objs))
     = Some EVAllocator_new
  /\ (forall (i : nat) this,
        objs !! i = Some this ->
        snd (CreateAllocator objs) !! i = Some this
        /\ snd (CreateSubAllocator numa_node objs) !! i = Some this)
  /\ (forall sub,
        (ev_allocator_ sub < length objs)%nat ->
        (forall alignment num_bytes w,
           exists p objs' w',
             Alloc alignment num_bytes sub objs w = Some (p, objs', w')
             /\ length objs' = length objs)
        /\ (forall (p : ptr) (num_bytes : Z) w,
              exists objs' w',
                Free p num_bytes sub objs w = Some (objs', w')
                /\ length objs' = length objs)).
Proof.
  split; [reflexivity|].
  unfold CreateAllocator, CreateEVAllocator. rewrite CreateSubAllocator_eq.
  unfold new_EVAllocator. cbn [fst snd ev_allocator_].
  assert (Hnone : objs !! length objs = None) by (apply lookup_ge_None; lia).
  assert (Hnew : (objs ++ [EVAllocator_new]) !! length objs = Some EVAllocator_new).
  { rewrite lookup_app_r by lia. rewrite Nat.sub_diag. reflexivity. }
  repeat (split; [assumption|]). split.
  - intros i this Hi.
    assert (Hold : (objs ++ [EVAllocator_new]) !! i = Some this).
    { rewrite lookup_app_l; [exact Hi|]. apply lookup_lt_is_Some. eauto. }
    split; exact Hold.
  - intros sub Hsub.
    destruct (lookup_lt_is_Some_2 objs (ev_allocator_ sub) Hsub) as [this Hthis].
    split.
    + intros alignment num_bytes w. unfold Alloc. rewrite Hthis.
      destruct (AllocateRaw alignment num_bytes this w) as [[p this'] w'].
      exists p, (<[ev_allocator_ sub := this']> objs), w'.
      split; [reflexivity|apply length_insert].
    + intros p num_bytes w. unfold Free. rewrite Hthis.
      destruct (DeallocateRaw p this w) as [this' w'].
      exists (<[ev_allocator_ sub := this']> objs), w'.
      split; [reflexivity|apply length_insert].
Qed.

End Objects.

(** ** Through the sub-allocator and back *)

Section SubRoundTrip.

Context {P : Port}.

Implicit Types (w : world P) (objs : list EVAllocator) (sub : EVSubAllocator).

(** X11. Statistics being collected, [Alloc] through a sub-allocator followed by
    [Free] of the pointer it returned, with any [num_bytes] hint, right or
    wrong: both succeed, the wrapped allocator has its [bytes_in_use] back
    and one more call counted, and every other allocator of the store is as
    it was. *)
Theorem Alloc_Free_round_trip alignment num_bytes (hint : Z) sub objs w this :
  ev_allocator_collect_stats w = true ->
  objs !! ev_allocator_ sub = Some this ->
  int64_min <= bytes_in_use (stats_ this) <= int64_max ->
  exists p objs1 w1 objs2 w2 this2,
    Alloc alignment num_bytes sub objs w = Some (p, objs1, w1)
    /\ Free p hint sub objs1 w1 = Some (objs2, w2)
    /\ objs2 !! ev_allocator_ sub = Some this2
    /\ bytes_in_use (stats_ this2) = bytes_in_use (stats_ this)
    /\ num_allocs (stats_ this2) = to_int64 (num_allocs (stats_ this) + 1)
    /\ forall i : nat, i <> ev_allocator_ sub -> objs2 !! i = objs !! i.
Proof.
  intros Hflag Hthis Hrange.
  assert (Hlt : (ev_allocator_ sub < length objs)%nat)
    by (apply lookup_lt_is_Some; eauto).
  destruct (AllocateRaw_DeallocateRaw_round_trip alignment num_bytes this w
              Hflag Hrange) as (_ & Hb & Hn & _ & _).
  cbv zeta in Hb, Hn.
  destruct (AllocateRaw alignment num_bytes this w) as [[p this1] w1] eqn:HA.
  cbn [fst snd] in Hb, Hn.
  destruct (DeallocateRaw p this1 w1) as [this2 w2] eqn:HD.
  cbn [fst] in Hb, Hn.
  exists p, (<[ev_allocator_ sub := this1]> objs), w1,
    (<[ev_allocator_ sub := this2]> (<[ev_allocator_ sub := this1]> objs)), w2, this2.
  split; [unfold Alloc; rewrite Hthis, HA; reflexivity|].
  split.
  { unfold Free. rewrite list_lookup_insert_eq by exact Hlt. rewrite HD.
    reflexivity. }
  split; [apply list_lookup_insert_eq; rewrite length_insert; exact Hlt|].
  split; [exact Hb|]. split; [exact Hn|].
  intros i Hi. rewrite !list_lookup_insert_ne by congruence. reflexivity.
Qed.

End SubRoundTrip.

(** ** What an allocation logs *)

Section Log.

Context {P : Port}.

Implicit Types (this : EVAllocator) (w : world P).

(** X12. [AllocateRaw] keeps the log and appends at most two warnings to it: at
    most one single-allocation warning, which carries [num_bytes], then at
    most one cumulative warning, which carries the [bytes_in_use] that the
    allocation leaves; without statistics it never appends the second. *)
Theorem AllocateRaw_log_shape alignment num_bytes this w :
  let r := AllocateRaw alignment num_bytes this w in
  exists (l1 l2 : list warning),
    log (snd r) = log w ++ l1 ++ l2
    /\ (l1 = [] \/ l1 = [SingleAllocationWarning num_bytes])
    /\ (l2 = []
        \/ ev_allocator_collect_stats w = true
           /\ l2 = [TotalAllocationWarning (bytes_in_use (stats_ (snd (fst r))))]).
Proof.
  cbv zeta. rewrite AllocateRaw_unfold. cbv zeta.
  destruct (Large_frame w) as (_ & _ & _ & Hlog & _).
  set (warn1 := exceeds_large _ _ && _). clearbody warn1.
  exists (if warn1 then [SingleAllocationWarning num_bytes] else []).
  assert (H3 : forall s : sys P,
             log (set_os s (if warn1
                            then LOG (SingleAllocationWarning num_bytes)
                                   (snd (LargeAllocationWarningBytes w))
                            else snd (LargeAllocationWarningBytes w)))
             = log w ++ (if warn1 then [SingleAllocationWarning num_bytes] else [])).
  { intros s. destruct warn1; cbn [set_os LOG log]; rewrite Hlog;
      [reflexivity|rewrite app_nil_r; reflexivity]. }
  destruct (ev_allocator_collect_stats w).
  - match goal with
    | |- context [TotalAllocationWarningBytes ?x] =>
        destruct (Total_frame x) as (_ & _ & _ & Hlog' & _)
    end.
    cbn [fst snd stats_ bytes_in_use].
    match goal with
    | |- context [if ?b then LOG (TotalAllocationWarning ?v) _ else _] =>
        destruct b; [exists [TotalAllocationWarning v]|exists []]
    end; cbn [LOG log]; rewrite Hlog', H3.
    + split; [rewrite app_assoc; reflexivity|].
      split; [destruct warn1; auto|right; auto].
    + split; [rewrite app_nil_r; reflexivity|].
      split; [destruct warn1; auto|left; reflexivity].
  - exists []. cbn [snd]. rewrite H3. split; [rewrite app_nil_r; reflexivity|].
    split; [destruct warn1; auto|left; reflexivity].
Qed.

End Log.

(** ** Null pointers *)

Section Null.

Context {P : Port} {PS : PortSpec P}.

Implicit Types (this : EVAllocator) (w : world P).

Lemma set_os_same w : set_os (os w) w = w.
Proof. destruct w. reflexivity. Qed.

(** X13. On a platform that meets the heap contract, statistics being collected
    and the record satisfying its invariants: an allocation that fails
    changes of the statistics only [num_allocs], and [DeallocateRaw] of the
    null pointer changes neither the allocator nor the process. *)
Theorem null_pointer_accounting alignment num_bytes this w :
  ev_allocator_collect_stats w = true ->
  int64_min <= bytes_in_use (stats_ this) <= int64_max ->
  peak_ok (stats_ this) ->
  0 <= largest_alloc_size (stats_ this) ->
  (fst (AlignedMalloc num_bytes 8 (os w)) = nullptr ->
   let r := AllocateRaw alignment num_bytes this w in
   fst (fst r) = nullptr
   /\ bytes_in_use (stats_ (snd (fst r))) = bytes_in_use (stats_ this)
   /\ peak_bytes_in_use (stats_ (snd (fst r))) = peak_bytes_in_use (stats_ this)
   /\ largest_alloc_size (stats_ (snd (fst r))) = largest_alloc_size (stats_ this)
   /\ num_allocs (stats_ (snd (fst r))) = to_int64 (num_allocs (stats_ this) + 1))
  /\ DeallocateRaw nullptr this w = (this, w).
Proof.
  intros Hflag Hrange Hpeak Hlargest. split.
  - intros Hnull. cbv zeta. rewrite AllocateRaw_ptr, AllocateRaw_stats by exact Hflag.
    rewrite Hnull, GetAllocatedSize_null, Z.add_0_r.
    rewrite (to_int64_id _ Hrange).
    cbn [bytes_in_use peak_bytes_in_use largest_alloc_size num_allocs].
    unfold peak_ok in Hpeak. change (to_int64 0) with 0.
    repeat split; lia.
  - unfold DeallocateRaw. rewrite Hflag, GetAllocatedSize_null, AlignedFree_null.
    rewrite Z.sub_0_r, (to_int64_id _ Hrange), set_os_same.
    destruct this as [[] ? ?]. reflexivity.
Qed.

End Null.

(** ** The further properties on the small platform *)

(** A process that does not collect statistics: an allocation, a
    deallocation and a reset leave [bytes_in_use] at 0. *)
Lemma statistics_off_run_witness :
  bytes_in_use
    (stats_ (fst (run [CallAllocateRaw 16 1200; CallDeallocateRaw 8; CallClearStats]
                    (EVAllocator_new, world_start (toy_sys0 : sys toy_port)))))
  = bytes_in_use (stats_ EVAllocator_new).
Proof.
  exact (proj1 (statistics_off_run
                  [CallAllocateRaw 16 1200; CallDeallocateRaw 8; CallClearStats]
                  (EVAllocator_new, world_start (toy_sys0 : sys toy_port)) eq_refl)).
Defined.

(** Three allocations, a reset, then an allocation that fails: one call
    counted. *)
Lemma num_allocs_counts_calls_witness :
  num_allocs
    (stats_ (fst (run (toy_requests 3 ++ [CallClearStats; CallAllocateRaw 16 20000])
                    (EVAllocator_new, toy_world0))))
  = allocs_since_clear (toy_requests 3 ++ [CallClearStats; CallAllocateRaw 16 20000]) 0.
Proof.
  assert (Hfit : allocs_since_clear
                   (toy_requests 3 ++ [CallClearStats; CallAllocateRaw 16 20000]) 0
                 <= int64_max) by (vm_compute; discriminate).
  exact (proj2 (num_allocs_counts_calls
                  (toy_requests 3 ++ [CallClearStats; CallAllocateRaw 16 20000])
                  toy_world0 eq_refl) Hfit).
Defined.

(** A block of 1200 bytes allocated and freed at once: nothing in use. *)
Lemma AllocateRaw_DeallocateRaw_round_trip_witness :
  bytes_in_use
    (stats_ (fst (DeallocateRaw
                    (fst (fst (AllocateRaw 16 1200 EVAllocator_new toy_world0)))
                    (snd (fst (AllocateRaw 16 1200 EVAllocator_new toy_world0)))
                    (snd (AllocateRaw 16 1200 EVAllocator_new toy_world0)))))
  = bytes_in_use (stats_ EVAllocator_new).
Proof.
  assert (Hrange : int64_min <= bytes_in_use (stats_ EVAllocator_new) <= int64_max)
    by (vm_compute; split; discriminate).
  destruct (AllocateRaw_DeallocateRaw_round_trip 16 1200 EVAllocator_new toy_world0
              eq_refl Hrange) as (_ & H & _).
  exact H.
Defined.

(** The 1200 bytes reached by a first allocation stay under the peak after
    the block is freed and a smaller one allocated. *)
Lemma peak_and_largest_bound_history_witness :
  bytes_in_use (stats_ (snd (fst (AllocateRaw 16 1200 EVAllocator_new toy_world0))))
  <= peak_bytes_in_use
       (stats_ (fst (run [CallAllocateRaw 16 1200; CallDeallocateRaw 8;
                          CallAllocateRaw 16 100] (EVAllocator_new, toy_world0)))).
Proof.
  exact (proj1 (peak_and_largest_bound_history 16 1200
                  [CallDeallocateRaw 8; CallAllocateRaw 16 100]
                  (EVAllocator_new, toy_world0) eq_refl eq_refl)).
Defined.

Lemma toy_world0_consistent : cache_consistent toy_world0.
Proof. intros []; reflexivity. Qed.

(** Three allocations in a new process: one query for the cumulative
    threshold. *)
Lemma run_asks_each_threshold_once_witness :
  (queries_of Total (snd (run (toy_requests 3) (EVAllocator_new, toy_world0))) <= 1)%nat.
Proof.
  exact (proj1 (run_asks_each_threshold_once (toy_requests 3)
                  (EVAllocator_new, toy_world0) Total toy_world0_consistent)).
Defined.

(** With 10000 bytes available, the first block of 1200 bytes gives the
    thresholds 1000 (a tenth of 10000) and 4400 (half of 8800). *)
Lemma first_AllocateRaw_thresholds_witness :
  large_value (snd (AllocateRaw 16 1200 EVAllocator_new toy_world0)) = Some 1000
  /\ total_value (snd (AllocateRaw 16 1200 EVAllocator_new toy_world0)) = Some 4400
  /\ ram_queries (snd (AllocateRaw 16 1200 EVAllocator_new toy_world0))
     = ram_queries toy_world0 ++ [Large; Total].
Proof.
  exact (first_AllocateRaw_thresholds 16 1200 EVAllocator_new toy_world0
           eq_refl eq_refl eq_refl).
Defined.

(** With the threshold -10 cached, a request of 5000 bytes logs nothing. *)
Lemma AllocateRaw_unsigned_threshold_witness :
  single_warnings
    (log (snd (AllocateRaw 16 5000 EVAllocator_new
                 {| os := (toy_sys0 : sys toy_port);
                    ev_allocator_collect_stats := false;
                    large_value := Some (-10);
                    total_value := None;
                    ram_queries := [Large];
                    log := [] |})))
  = 0.
Proof.
  assert (HT : int64_min <= -10 < 0) by (vm_compute; split; [discriminate|reflexivity]).
  assert (Hn : 0 <= 5000 <= int64_max) by (vm_compute; split; discriminate).
  exact (proj2 (AllocateRaw_unsigned_threshold 16 5000 EVAllocator_new
                  {| os := (toy_sys0 : sys toy_port);
                     ev_allocator_collect_stats := false;
                     large_value := Some (-10);
                     total_value := None;
                     ram_queries := [Large];
                     log := [] |}
                  (or_intror (conj (ex_intro _ (-10) (conj eq_refl HT)) Hn)))).
Defined.

(** A deallocation, a reset and a snapshot log nothing. *)
Lemma run_without_AllocateRaw_witness :
  log (snd (run [CallDeallocateRaw 8; CallClearStats; CallGetStats]
              (EVAllocator_new, toy_world0)))
  = log toy_world0.
Proof.
  exact (proj1 (run_without_AllocateRaw
                  [CallDeallocateRaw 8; CallClearStats; CallGetStats]
                  (EVAllocator_new, toy_world0) eq_refl)).
Defined.

(** Creating a second allocator keeps the first one, here one whose
    statistics were reset. *)
Lemma factory_keeps_objects_witness :
  snd (CreateAllocator [ClearStats EVAllocator_new]) !! 0%nat
  = Some (ClearStats EVAllocator_new)
  /\ snd (CreateSubAllocator 3 [ClearStats EVAllocator_new]) !! 0%nat
     = Some (ClearStats EVAllocator_new).
Proof.
  destruct (@factory_keeps_objects toy_port [ClearStats EVAllocator_new] 3)
    as (_ & _ & _ & _ & _ & Hkeep & _).
  exact (Hkeep 0%nat (ClearStats EVAllocator_new) eq_refl).
Defined.

(** [Alloc] of 1200 bytes then [Free] with the hint 7: both succeed and the
    wrapped allocator is back at 0 bytes. *)
Lemma Alloc_Free_round_trip_witness :
  exists p objs1 w1 objs2 w2 this2,
    Alloc 16 1200 {| ev_allocator_ := 0 |} [EVAllocator_new] toy_world0
    = Some (p, objs1, w1)
    /\ Free p 7 {| ev_allocator_ := 0 |} objs1 w1 = Some (objs2, w2)
    /\ objs2 !! 0%nat = Some this2
    /\ bytes_in_use (stats_ this2) = 0
    /\ num_allocs (stats_ this2) = to_int64 (0 + 1)
    /\ forall i : nat, i <> 0%nat -> objs2 !! i = [EVAllocator_new] !! i.
Proof.
  assert (Hrange : int64_min <= bytes_in_use (stats_ EVAllocator_new) <= int64_max)
    by (vm_compute; split; discriminate).
  exact (Alloc_Free_round_trip 16 1200 7 {| ev_allocator_ := 0 |} [EVAllocator_new]
           toy_world0 EVAllocator_new eq_refl eq_refl Hrange).
Defined.

(** A request of 20000 bytes fails and leaves [bytes_in_use] at 0; freeing
    the null pointer it returned changes nothing. *)
Lemma null_pointer_accounting_witness :
  bytes_in_use (stats_ (snd (fst (AllocateRaw 16 20000 EVAllocator_new toy_world0))))
  = 0
  /\ DeallocateRaw nullptr EVAllocator_new toy_world0 = (EVAllocator_new, toy_world0).
Proof.
  assert (Hrange : int64_min <= bytes_in_use (stats_ EVAllocator_new) <= int64_max)
    by (vm_compute; split; discriminate).
  assert (Hpeak : peak_ok (stats_ EVAllocator_new)) by (vm_compute; discriminate).
  assert (Hlargest : 0 <= largest_alloc_size (stats_ EVAllocator_new))
    by (vm_compute; discriminate).
  destruct (null_pointer_accounting (P:=toy_port) 16 20000 EVAllocator_new toy_world0
              eq_refl Hrange Hpeak Hlargest) as [Hfail Hfree].
  split; [|exact Hfree].
  destruct (Hfail eq_refl) as (_ & H & _). exact H.
Defined.
